(** * veinmind-runner: registry clients (docker and containerd backends)

    A shallow embedding of [veinmind-runner/pkg/registry/docker/client.go]
    and [veinmind-runner/pkg/registry/containerd/client.go].

    Go strings are byte sequences and are modelled by [string] (a list of
    8-bit [ascii]); Go maps by [gmap]; a Go function returning [(T, error)]
    by a pair [T * option error] where the source uses both components and
    by [result T] where the value is only meaningful without an error.
    Calls that reach the network, the container daemon or the container
    runtime thread an explicit world state.

    Imported Go packages are not part of the repository.  The pure ones
    that decide a property ([encoding/base64], [strings.Split],
    [strings.Join], docker's [command.EncodeAuthToBase64]) are modelled by
    executable definitions; the remaining ones are interfaces (type
    classes), instantiated by small stand-ins in the examples. *)

From Stdlib Require Import ZArith Ascii String.
From stdpp Require Import base option list gmap strings.

Set Default Proof Using "Type".
Open Scope string_scope.
Open Scope list_scope.

(** ** Go values *)

(** A Go [error] value; only its identity matters here. *)
Inductive error : Type := Err (msg : string).

#[global] Instance error_eq_dec : EqDecision error.
Proof. solve_decision. Defined.

(** [(T, error)] results whose value is unusable when the error is set. *)
Inductive result (A : Type) : Type :=
| Ok (a : A)
| Failed (e : error).
Arguments Ok {A} a.
Arguments Failed {A} e.

(** A call either returns or panics (nil dereference). *)
Inductive outcome (A : Type) : Type :=
| Returned (a : A)
| Panicked.
Arguments Returned {A} a.
Arguments Panicked {A}.

(** ** Package [strings] *)

Module Strings.

(** [strings.Split(s, sep)] for a one-byte separator: the substrings
    between occurrences of [sep]; always one more piece than there are
    separators. *)
Fixpoint Split (s : string) (sep : ascii) : list string :=
  match s with
  | EmptyString => [EmptyString]
  | String c s' =>
      if decide (c = sep) then EmptyString :: Split s' sep
      else match Split s' sep with
           | piece :: pieces => String c piece :: pieces
           | [] => [String c EmptyString]
           end
  end.

(** [strings.Join(elems, sep)]. *)
Fixpoint Join (elems : list string) (sep : string) : string :=
  match elems with
  | [] => ""
  | [e] => e
  | e :: rest => e +:+ sep +:+ Join rest sep
  end.

(** [strings.Count(s, sep)] for a one-byte separator. *)
Fixpoint Count (s : string) (sep : ascii) : nat :=
  match s with
  | EmptyString => 0
  | String c s' => (if decide (c = sep) then 1 else 0) + Count s' sep
  end.

End Strings.

(** ** Package [encoding/base64] *)

Module base64.

(** An encoding is its 64-character alphabet; padding is ['=']. *)
Definition encodeStd : string :=
  "ABCDEFGHIJKLMNOPQRSTUVWXYZabcdefghijklmnopqrstuvwxyz0123456789+/".
Definition encodeURL : string :=
  "ABCDEFGHIJKLMNOPQRSTUVWXYZabcdefghijklmnopqrstuvwxyz0123456789-_".

Definition StdPadding : ascii := "="%char.

(** A 6-bit group, most significant bit first. *)
Record sextet : Type := Sextet { s5 : bool; s4 : bool; s3 : bool; s2 : bool; s1 : bool; s0 : bool }.

Definition sextet_index (x : sextet) : nat :=
  nat_of_ascii (Ascii (s0 x) (s1 x) (s2 x) (s3 x) (s4 x) (s5 x) false false).

Definition sextet_of_index (n : nat) : sextet :=
  let 'Ascii b0 b1 b2 b3 b4 b5 _ _ := ascii_of_nat n in Sextet b5 b4 b3 b2 b1 b0.

(** [enc.encode[i]]: the character for a 6-bit value. *)
Definition encodeChar (alphabet : string) (x : sextet) : ascii :=
  default StdPadding (String.get (sextet_index x) alphabet).

(** Position of a character in the alphabet: the decode map. *)
Fixpoint indexOf (c : ascii) (alphabet : string) : option nat :=
  match alphabet with
  | EmptyString => None
  | String a rest => if decide (a = c) then Some 0 else S <$> indexOf c rest
  end.

Definition decodeChar (alphabet : string) (c : ascii) : option sextet :=
  sextet_of_index <$> indexOf c alphabet.

(** Three bytes make four sextets. *)
Definition split3 (a b c : ascii) : sextet * sextet * sextet * sextet :=
  let 'Ascii a0 a1 a2 a3 a4 a5 a6 a7 := a in
  let 'Ascii b0 b1 b2 b3 b4 b5 b6 b7 := b in
  let 'Ascii c0 c1 c2 c3 c4 c5 c6 c7 := c in
  (Sextet a7 a6 a5 a4 a3 a2, Sextet a1 a0 b7 b6 b5 b4,
   Sextet b3 b2 b1 b0 c7 c6, Sextet c5 c4 c3 c2 c1 c0).

Definition byte1 (x y : sextet) : ascii :=
  Ascii (s4 y) (s5 y) (s0 x) (s1 x) (s2 x) (s3 x) (s4 x) (s5 x).
Definition byte2 (y z : sextet) : ascii :=
  Ascii (s2 z) (s3 z) (s4 z) (s5 z) (s0 y) (s1 y) (s2 y) (s3 y).
Definition byte3 (z t : sextet) : ascii :=
  Ascii (s0 t) (s1 t) (s2 t) (s3 t) (s4 t) (s5 t) (s0 z) (s1 z).

Definition zero : ascii := Ascii false false false false false false false false.

(** [enc.EncodeToString(src)], with padding. *)
Fixpoint EncodeToString (alphabet : string) (src : string) : string :=
  let e := encodeChar alphabet in
  match src with
  | EmptyString => EmptyString
  | String a EmptyString =>
      let '(x, y, _, _) := split3 a zero zero in
      String (e x) (String (e y) (String StdPadding (String StdPadding EmptyString)))
  | String a (String b EmptyString) =>
      let '(x, y, z, _) := split3 a b zero in
      String (e x) (String (e y) (String (e z) (String StdPadding EmptyString)))
  | String a (String b (String c rest)) =>
      let '(x, y, z, t) := split3 a b c in
      String (e x) (String (e y) (String (e z) (String (e t)
        (EncodeToString alphabet rest))))
  end.

Definition isNewline (c : ascii) : bool :=
  bool_decide (c = "010"%char) || bool_decide (c = "013"%char).

Fixpoint stripNewlines (s : string) : string :=
  match s with
  | EmptyString => EmptyString
  | String c s' => if isNewline c then stripNewlines s' else String c (stripNewlines s')
  end.

Definition isPad (c : ascii) : bool := bool_decide (c = StdPadding).
Definition isEnd (s : string) : bool :=
  match s with EmptyString => true | _ => false end.

(** The quantum loop of [enc.Decode] (non-strict, padded): four
    characters give three bytes; a final quantum may end in one or two
    padding characters, after which the input must end.  [None] is
    [CorruptInputError] (its offset is not modelled). *)
Fixpoint decodeQuanta (alphabet : string) (s : string) : option string :=
  let d := decodeChar alphabet in
  match s with
  | EmptyString => Some EmptyString
  | String c1 (String c2 (String c3 (String c4 rest))) =>
      match d c1, d c2 with
      | Some x, Some y =>
          match d c3, d c4 with
          | Some z, Some t =>
              (λ tl, String (byte1 x y) (String (byte2 y z) (String (byte3 z t) tl)))
                <$> decodeQuanta alphabet rest
          | Some z, None =>
              if isPad c4 && isEnd rest
              then Some (String (byte1 x y) (String (byte2 y z) EmptyString))
              else None
          | None, _ =>
              if isPad c3 && isPad c4 && isEnd rest
              then Some (String (byte1 x y) EmptyString)
              else None
          end
      | _, _ => None
      end
  | _ => None
  end.

(** [enc.DecodeString(s)]: carriage returns and line feeds are ignored. *)
Definition DecodeString (alphabet : string) (s : string) : option string :=
  decodeQuanta alphabet (stripNewlines s).

Definition StdEncoding : string := encodeStd.
Definition URLEncoding : string := encodeURL.

Definition CorruptInputError : error := Err "illegal base64 data".

End base64.

(** ** Imported packages: data types and interfaces *)

(** [net/url]: only the host of a parsed URL is read. *)
Module url.
Record URL : Type := { Host : string }.
Class API : Type := { Parse : string → result URL }.
End url.

(** [go-containerregistry/pkg/name]. *)
Module name.
Class API : Type := {
  Registry : Type;
  NewRegistry : string → result Registry;
  (** [registry.String()] *)
  RegistryString : Registry → string;
  Reference : Type;
  ParseReference : string → result Reference;
  Repository : Type;
  NewRepository : string → result Repository
}.
End name.

(** [distribution/reference]. *)
Module reference.
Class API : Type := {
  Named : Type;
  ParseDockerRef : string → result Named;
  Domain : Named → string;
  (** [named.String()] *)
  NamedString : Named → string
}.
End reference.

(** [go-containerregistry/pkg/authn]. *)
Module authn.
Record Basic : Type := { Username : string; Password : string }.
End authn.

(** [net/http]: the transport settings the client fixes (durations in
  seconds). *)
Module http.
Record Transport : Type := {
  ProxyFromEnvironment : bool;
  DialTimeout : Z;
  DialKeepAlive : Z;
  ForceAttemptHTTP2 : bool;
  MaxIdleConns : Z;
  IdleConnTimeout : Z;
  TLSHandshakeTimeout : Z;
  ExpectContinueTimeout : Z;
  InsecureSkipVerify : bool
}.
End http.

(** [go-containerregistry/pkg/v1/remote]: requests to a registry over the
  network. *)
Module remote.
Class API (W : Type) (N : name.API) : Type := {
  Option : Type;
  WithAuth : authn.Basic → Option;
  WithTransport : http.Transport → Option;
  Descriptor : Type;
  Get : name.Reference → list Option → W → (option Descriptor * option error) * W;
  List : name.Repository → list Option → W → (list string * option error) * W;
  CatalogPage : name.Registry → string → Z → list Option → W → (list string * option error) * W
}.
End remote.

(** [encoding/json]: how a Go string is written as a JSON string literal
  (quotes and escapes). *)
Module json.
Class API : Type := { quote : string → string }.
End json.

(** [docker/docker/api/types] and [docker/cli/cli/config/types]. *)
Module dockertypes.

Record AuthConfig : Type := {
  Username : string;
  Password : string;
  Auth : string;
  Email : string;
  ServerAddress : string;
  IdentityToken : string;
  RegistryToken : string
}.

(** The other fields of the pull options are left at their zero values
    by every call in the client. *)
Record ImagePullOptions : Type := { RegistryAuth : string }.

Record ImageRemoveOptions : Type := { Force : bool; PruneChildren : bool }.

End dockertypes.

(** [docker/docker/client], with [ioutil.ReadAll] on the stream a pull
  returns. *)
Module dockercli.
Class API (W : Type) : Type := {
  Client : Type;
  (** [NewClientWithOpts(FromEnv, WithAPIVersionNegotiation())] *)
  NewClientWithOpts : W → result Client * W;
  ReadCloser : Type;
  (** the stream is [None] when the interface value is nil *)
  ImagePull : Client → string → dockertypes.ImagePullOptions →
              W → (option ReadCloser * option error) * W;
  ReadAll : ReadCloser → W → (string * option error) * W;
  ImageRemove : Client → string → dockertypes.ImageRemoveOptions → W → option error * W
}.
End dockercli.

(** [docker/cli/cli/command]. *)
Module command.
Section command.
Context {J : json.API}.

Definition dquote : ascii := ascii_of_nat 34.

(** One [omitempty] string member of a JSON object. *)
Definition member (key value : string) : list string :=
  if decide (value = EmptyString) then []
  else [String dquote key +:+ String dquote ":" +:+ json.quote value].

(** [json.Marshal] of an [AuthConfig]: every field is tagged
    [omitempty]. *)
Definition marshalAuthConfig (a : dockertypes.AuthConfig) : string :=
  "{" +:+ Strings.Join
           (member "username" (dockertypes.Username a) ++
            member "password" (dockertypes.Password a) ++
            member "auth" (dockertypes.Auth a) ++
            member "email" (dockertypes.Email a) ++
            member "serveraddress" (dockertypes.ServerAddress a) ++
            member "identitytoken" (dockertypes.IdentityToken a) ++
            member "registrytoken" (dockertypes.RegistryToken a)) ","
      +:+ "}".

(** [EncodeAuthToBase64]: the JSON form of the auth configuration in
    URL-safe base64.  Marshalling a struct of strings cannot fail. *)
Definition EncodeAuthToBase64 (authConfig : dockertypes.AuthConfig) : string * option error :=
  (base64.EncodeToString base64.URLEncoding (marshalAuthConfig authConfig), None).

End command.
End command.

(** [containerd/containerd]: the runtime client. *)
Module containerdlib.
Class API (W : Type) : Type := {
  Client : Type;
  (** [containerd.New(address, WithDefaultNamespace(ns))] *)
  New : string → string → W → result Client * W;
  Image : Type;
  (** [client.Pull(ctx, ref, WithPullUnpack)] *)
  Pull : Client → string → W → result Image * W;
  (** [image.Target().Digest] *)
  TargetDigest : Image → string;
  (** [client.ImageService().Delete(ctx, name, SynchronousDelete())]
      in the given namespace *)
  Delete : Client → string → string → W → option error * W
}.
End containerdlib.

(** [chaitin/libveinmind/go/plugin/log]: what [log.Error] was given. *)
Module log.
Inductive Entry : Type :=
| Error (err : error)
| ErrorString (msg : string).
End log.

(** ** Package [docker]: registry HTTP API and docker daemon *)

Module docker.
Section docker.

Context {W : Type} {N : name.API} {F : reference.API} {U : url.API}
        {R : remote.API W N} {D : dockercli.API W} {J : json.API}.

Definition dockerConfigPath : string := "/root/.docker/config.json".

Record Auth : Type := { Username : string; Password : string }.

(** [var auth Auth]: the zero value. *)
Definition zeroAuth : Auth := {| Username := EmptyString; Password := EmptyString |}.

(** The [ctx] field is always [context.Background()] and is left out.
    Local variables that the source reassigns are numbered. *)
Record RegistryClient : Type := {
  auth : gmap string Auth;
  options : list remote.Option
}.

(** An option is given the client under construction and returns the
    client to go on with, or an error.  This is the behaviour of
    [WithAuth], the only option of the package: it fails before it
    writes, and otherwise returns the client it was given.  An option
    written elsewhere could also change the client through the pointer
    and then fail, or return no client; such options are outside this
    type, and every property below is stated for lists of [WithAuth]
    options. *)
Definition Option : Type := RegistryClient → result RegistryClient.

Definition WithAuth (address : string) (auth0 : Auth) : Option :=
  λ c,
    match name.NewRegistry address with
    | Failed err => Failed err
    | Ok registry =>
        Ok {| auth := <[name.RegistryString registry := auth0]> (auth c);
              options := options c |}
    end.

(** What the constructor finds at [dockerConfigPath]: no file, a file
    that cannot be read, one that is not JSON, or the [auths] object.  Go
    ranges over a map in an unspecified order: [AuthConfigs] lists the
    entries in the order the loop visits them. *)
Inductive ConfigFile : Type :=
| NotExist (err : error)
| Unreadable (err : error)
| Malformed (err : error)
| Parsed (AuthConfigs : list (string * dockertypes.AuthConfig)).

Definition defaultTransport : http.Transport :=
  {| http.ProxyFromEnvironment := true;
     http.DialTimeout := 5;
     http.DialKeepAlive := 30;
     http.ForceAttemptHTTP2 := true;
     http.MaxIdleConns := 100;
     http.IdleConnTimeout := 90;
     http.TLSHandshakeTimeout := 10;
     http.ExpectContinueTimeout := 1;
     http.InsecureSkipVerify := true |}.

(** The loop over [opts] (lines 61-68). *)
Fixpoint applyOptions (opts : list Option) (c : RegistryClient)
    : RegistryClient * list log.Entry :=
  match opts with
  | [] => (c, [])
  | opt :: rest =>
      match opt c with
      | Failed err =>
          let '(c', l) := applyOptions rest c in (c', log.Error err :: l)
      | Ok cNew => applyOptions rest cNew
      end
  end.

(** The body of the loop over [dockerConfig.AuthConfigs] (lines 80-110). *)
Definition loadAuthConfig (c : RegistryClient) (server : string)
    (config : dockertypes.AuthConfig) : RegistryClient * list log.Entry :=
  let registryName :=
    match url.Parse server with
    | Failed _ => server
    | Ok u => url.Host u
    end in
  match name.NewRegistry registryName with
  | Failed err => (c, [log.Error err])
  | Ok registry =>
      if decide (dockertypes.Auth config ≠ EmptyString) then
        match base64.DecodeString base64.StdEncoding (dockertypes.Auth config) with
        | Some authDecode =>
            let authSplit := Strings.Split authDecode ":" in
            if decide (length authSplit = 2) then
              let auth0 := {| Username := default EmptyString (authSplit !! 0%nat);
                              Password := default EmptyString (authSplit !! 1%nat) |} in
              ({| auth := <[name.RegistryString registry := auth0]> (auth c);
                  options := options c |}, [])
            else (c, [log.ErrorString "docker config auth block length wrong"])
        | None => (c, [log.Error base64.CorruptInputError])
        end
      else (c, [])
  end.

Fixpoint loadAuthConfigs (configs : list (string * dockertypes.AuthConfig))
    (c : RegistryClient) : RegistryClient * list log.Entry :=
  match configs with
  | [] => (c, [])
  | (server, config) :: rest =>
      let '(c1, l1) := loadAuthConfig c server config in
      let '(c2, l2) := loadAuthConfigs rest c1 in
      (c2, l1 ++ l2)
  end.

(** [NewRegistryClient(opts...)], given the state of the config file;
    the third component is what was logged. *)
Definition NewRegistryClient (file : ConfigFile) (opts : list Option)
    : RegistryClient * option error * list log.Entry :=
  let c0 := {| auth := ∅; options := [] |} in
  let '(c1, l1) := applyOptions opts c0 in
  let '(c2, l2) :=
    match file with
    | NotExist err => (c1, [log.Error err])
    | Unreadable err => (c1, [log.Error err])
    | Malformed err => (c1, [log.Error err])
    | Parsed AuthConfigs => loadAuthConfigs AuthConfigs c1
    end in
  let clientOpts := [remote.WithTransport defaultTransport] in
  ({| auth := auth c2; options := clientOpts |}, None, l1 ++ l2).

Definition GetRepo (client : RegistryClient) (repo : string)
    (options0 : list remote.Option) (w : W)
    : (option remote.Descriptor * option error) * W :=
  let options1 := options0 ++ options client in
  match reference.ParseDockerRef repo with
  | Failed err => ((None, Some err), w)
  | Ok named =>
      let domain := reference.Domain named in
      let auth0 := match auth client !! domain with Some v => v | None => zeroAuth end in
      let options2 :=
        if decide (Username auth0 ≠ EmptyString ∧ Password auth0 ≠ EmptyString)
        then options1 ++ [remote.WithAuth {| authn.Username := Username auth0;
                                             authn.Password := Password auth0 |}]
        else options1 in
      match name.ParseReference repo with
      | Failed err => ((None, Some err), w)
      | Ok ref => remote.Get ref options2 w
      end
  end.

Definition GetRepoTags (client : RegistryClient) (repo : string)
    (options0 : list remote.Option) (w : W)
    : (list string * option error) * W :=
  let options1 := options0 ++ options client in
  match reference.ParseDockerRef repo with
  | Failed err => (([], Some err), w)
  | Ok named =>
      let domain := reference.Domain named in
      let auth0 := match auth client !! domain with Some v => v | None => zeroAuth end in
      let options2 :=
        if decide (Username auth0 ≠ EmptyString ∧ Password auth0 ≠ EmptyString)
        then options1 ++ [remote.WithAuth {| authn.Username := Username auth0;
                                             authn.Password := Password auth0 |}]
        else options1 in
      match name.NewRepository repo with
      | Failed err => (([], Some err), w)
      | Ok repoR => remote.List repoR options2 w
      end
  end.

(** The [for] loop of [GetRepos] (lines 214-229).  The loop has no bound
    of its own; [fuel] bounds the number of iterations and [None] means
    the bound was reached before the loop left. *)
Fixpoint catalogLoop (fuel : nat) (regsitry : name.Registry)
    (options2 : list remote.Option) (last : string) (repos : list string) (w : W)
    : option ((list string * option error) * W) :=
  match fuel with
  | O => None
  | S fuel' =>
      let '((reposTemp, err), w1) := remote.CatalogPage regsitry last 10000 options2 w in
      match err with
      | Some _ => Some ((repos, err), w1)
      | None =>
          if decide (0 < length reposTemp) then
            catalogLoop fuel' regsitry options2
              (List.last reposTemp EmptyString) (repos ++ reposTemp) w1
          else Some ((repos, err), w1)
      end
  end.

Definition GetRepos (fuel : nat) (client : RegistryClient) (address : string)
    (options0 : list remote.Option) (w : W)
    : option ((list string * option error) * W) :=
  let options1 := options0 ++ options client in
  let auth0 := match auth client !! address with Some v => v | None => zeroAuth end in
  let options2 :=
    if decide (Username auth0 ≠ EmptyString ∧ Password auth0 ≠ EmptyString)
    then options1 ++ [remote.WithAuth {| authn.Username := Username auth0;
                                         authn.Password := Password auth0 |}]
    else options1 in
  match name.NewRegistry address with
  | Failed err => Some (([], Some err), w)
  | Ok regsitry => catalogLoop fuel regsitry options2 EmptyString [] w
  end.

(** [ioutil.ReadAll(closer)]: reading from a nil stream is a nil
    dereference. *)
Definition Pull (client : RegistryClient) (repo : string) (w : W)
    : outcome (string * option error) * W :=
  match dockercli.NewClientWithOpts w with
  | (Failed err, w1) => (Returned (EmptyString, Some err), w1)
  | (Ok c, w1) =>
      match reference.ParseDockerRef repo with
      | Failed err => (Returned (EmptyString, Some err), w1)
      | Ok named =>
          let domain := reference.Domain named in
          let auth0 := match auth client !! domain with Some v => v | None => zeroAuth end in
          let '(token, err0) :=
            command.EncodeAuthToBase64
              {| dockertypes.Username := Username auth0;
                 dockertypes.Password := Password auth0;
                 dockertypes.Auth := EmptyString;
                 dockertypes.Email := EmptyString;
                 dockertypes.ServerAddress := EmptyString;
                 dockertypes.IdentityToken := EmptyString;
                 dockertypes.RegistryToken := EmptyString |} in
          let '((closer, err1), w2) :=
            if decide (token = EmptyString) then
              dockercli.ImagePull c repo {| dockertypes.RegistryAuth := EmptyString |} w1
            else
              dockercli.ImagePull c repo {| dockertypes.RegistryAuth := token |} w1 in
          match closer with
          | None => (Panicked, w2)
          | Some stream =>
              let '((_, err2), w3) := dockercli.ReadAll stream w2 in
              match err2 with
              | Some err => (Returned (EmptyString, Some err), w3)
              | None => (Returned (reference.NamedString named, None), w3)
              end
          end
      end
  end.

Definition Remove (client : RegistryClient) (id : string) (w : W) : option error * W :=
  match dockercli.NewClientWithOpts w with
  | (Failed err, w1) => (Some err, w1)
  | (Ok c, w1) =>
      dockercli.ImageRemove c id
        {| dockertypes.Force := true; dockertypes.PruneChildren := true |} w1
  end.

End docker.
End docker.

(** ** Package [containerd]: container runtime *)

Module containerd.
Section containerd.

Context {W : Type} {F : reference.API} {C : containerdlib.API W}.

Definition ns : string := "veinmind-runner".
Definition containerdSock : string := "/run/containerd/containerd.sock".

Record RegistryClient : Type := { client : containerdlib.Client }.

Definition NewRegistryClient (w : W) : result RegistryClient * W :=
  match containerdlib.New containerdSock ns w with
  | (Failed err, w1) => (Failed err, w1)
  | (Ok client0, w1) => (Ok {| client := client0 |}, w1)
  end.

Definition Pull (c : RegistryClient) (repo0 : string) (w : W)
    : (string * option error) * W :=
  let repo1 :=
    match reference.ParseDockerRef repo0 with
    | Ok named => reference.NamedString named
    | Failed _ => repo0
    end in
  match containerdlib.Pull (client c) repo1 w with
  | (Failed err, w1) => ((EmptyString, Some err), w1)
  | (Ok image, w1) =>
      let imageID := Strings.Join [ns; containerdlib.TargetDigest image] "/" in
      ((imageID, None), w1)
  end.

Definition Remove (c : RegistryClient) (repo0 : string) (w : W) : option error * W :=
  let repo1 :=
    match reference.ParseDockerRef repo0 with
    | Ok named => reference.NamedString named
    | Failed _ => repo0
    end in
  containerdlib.Delete (client c) ns repo1 w.

End containerd.
End containerd.

(** ** The [registry.Client] interface and its two implementations *)

Module registry.
Class Client (W T : Type) : Type := {
  Pull : T → string → W → outcome (string * option error) * W;
  Remove : T → string → W → option error * W
}.
End registry.

#[export] Instance docker_Client {W} {N : name.API} {F : reference.API}
    {R : remote.API W N} {D : dockercli.API W} {J : json.API}
    : registry.Client W docker.RegistryClient :=
  {| registry.Pull := docker.Pull; registry.Remove := docker.Remove |}.

#[export] Instance containerd_Client {W} {F : reference.API} {C : containerdlib.API W}
    : registry.Client W containerd.RegistryClient :=
  {| registry.Pull := λ c repo w,
       let '(r, w1) := containerd.Pull c repo w in (Returned r, w1);
     registry.Remove := containerd.Remove |}.

(** ** Vocabulary of the properties *)

Section catalog.

Context {W : Type} {N : name.API} {R : remote.API W N}.

(** The repositories a registry lists after the cursor [last]; the empty
    cursor stands before the first one. *)
Fixpoint after (last : string) (rs : list string) : list string :=
  match rs with
  | [] => []
  | r :: rs' => if decide (r = last) then rs' else after last rs'
  end.

Definition remaining (last : string) (rs : list string) : list string :=
  if decide (last = EmptyString) then rs else after last rs.

(** The options of a request made for the store key [key]: the caller's
    options, then the client's, then basic authentication when the store
    has an entry for [key] whose username and password are both
    non-empty. *)
Definition requestOptions (client : docker.RegistryClient) (key : string)
    (options0 : list remote.Option) : list remote.Option :=
  match docker.auth client !! key with
  | Some v =>
      if decide (docker.Username v = EmptyString ∨ docker.Password v = EmptyString)
      then options0 ++ docker.options client
      else options0 ++ docker.options client
             ++ [remote.WithAuth {| authn.Username := docker.Username v;
                                    authn.Password := docker.Password v |}]
  | None => options0 ++ docker.options client
  end.

(** A registry that serves the repositories [rs], in that order, to
    requests carrying [options]: asked for up to 10000 entries after a
    cursor that is empty or one of its names, it answers, without an
    error, with some first part of what remains, and with at least one
    entry while something remains.  Nothing is asked of its answers to
    other cursors. *)
Definition servesCatalog (regsitry : name.Registry) (options : list remote.Option)
    (rs : list string) : Prop :=
  ∀ (last : string) (w : W),
    last = EmptyString ∨ last ∈ rs →
    ∃ (page : list string) (w' : W),
      remote.CatalogPage regsitry last 10000 options w = ((page, None), w')
      ∧ page `prefix_of` remaining last rs
      ∧ (remaining last rs ≠ [] → page ≠ []).

(** [fetched regsitry options last w repos last' w']: from cursor [last]
    in world [w], a run of catalog requests, each answered without an
    error by a non-empty page, yields [repos] in all and ends at cursor
    [last'] in world [w']. *)
Inductive fetched (regsitry : name.Registry) (options : list remote.Option)
    : string → W → list string → string → W → Prop :=
| fetched_none last w : fetched regsitry options last w [] last w
| fetched_page last w page w1 repos last' w' :
    remote.CatalogPage regsitry last 10000 options w = ((page, None), w1) →
    page ≠ [] →
    fetched regsitry options (List.last page EmptyString) w1 repos last' w' →
    fetched regsitry options last w (page ++ repos) last' w'.

End catalog.

Section credentials.

Context {N : name.API} {U : url.API}.

(** The text before and after the first [':'] of a string. *)
Fixpoint cutColon (s : string) : string * string :=
  match s with
  | EmptyString => (EmptyString, EmptyString)
  | String c s' =>
      if decide (c = ":"%char) then (EmptyString, s')
      else let '(u, p) := cutColon s' in (String c u, p)
  end.

(** The credential an auth block stands for: its base64 decoding must be
    [user:password] with exactly one [':']. *)
Definition credentialOf (block : string) : option docker.Auth :=
  match base64.DecodeString base64.StdEncoding block with
  | Some s =>
      if decide (Strings.Count s ":" = 1)
      then let '(u, p) := cutColon s in
           Some {| docker.Username := u; docker.Password := p |}
      else None
  | None => None
  end.

(** The canonical domain of a server key of the config file: the host
    when the key parses as a URL, the key itself otherwise, validated as
    a registry. *)
Definition canonicalDomain (server : string) : option string :=
  let registryName :=
    match url.Parse server with
    | Ok u => url.Host u
    | Failed _ => server
    end in
  match name.NewRegistry registryName with
  | Ok registry => Some (name.RegistryString registry)
  | Failed _ => None
  end.

(** The write to the store that an explicit override asks for. *)
Definition overrideWrite (o : string * docker.Auth) : option (string * docker.Auth) :=
  match name.NewRegistry o.1 with
  | Ok registry => Some (name.RegistryString registry, o.2)
  | Failed _ => None
  end.

(** The write to the store that a config-file entry asks for. *)
Definition fileWrite (e : string * dockertypes.AuthConfig) : option (string * docker.Auth) :=
  match canonicalDomain e.1, credentialOf (dockertypes.Auth e.2) with
  | Some d, Some a => Some (d, a)
  | _, _ => None
  end.

(** The value written last for [d] in a chronological list of writes. *)
Fixpoint lastWrite (d : string) (writes : list (string * docker.Auth)) : option docker.Auth :=
  match writes with
  | [] => None
  | (d', a) :: rest =>
      match lastWrite d rest with
      | Some a' => Some a'
      | None => if decide (d' = d) then Some a else None
      end
  end.

(** A store after a chronological list of writes. *)
Definition applyWrites (writes : list (string * docker.Auth))
    (store : gmap string docker.Auth) : gmap string docker.Auth :=
  foldl (λ m w, <[w.1 := w.2]> m) store writes.

(** The entries of a store for the domain [d]. *)
Definition entriesFor (d : string) (store : gmap string docker.Auth)
    : list (string * docker.Auth) :=
  filter (λ kv, kv.1 = d) (map_to_list store).

(** A config-file entry with only the [auth] member set. *)
Definition authBlock (block : string) : dockertypes.AuthConfig :=
  {| dockertypes.Username := EmptyString;
     dockertypes.Password := EmptyString;
     dockertypes.Auth := block;
     dockertypes.Email := EmptyString;
     dockertypes.ServerAddress := EmptyString;
     dockertypes.IdentityToken := EmptyString;
     dockertypes.RegistryToken := EmptyString |}.

End credentials.

Section daemon.

Context {J : json.API}.

(** The auth configuration the daemon backend builds from a credential. *)
Definition authConfigOf (a : docker.Auth) : dockertypes.AuthConfig :=
  {| dockertypes.Username := docker.Username a;
     dockertypes.Password := docker.Password a;
     dockertypes.Auth := EmptyString;
     dockertypes.Email := EmptyString;
     dockertypes.ServerAddress := EmptyString;
     dockertypes.IdentityToken := EmptyString;
     dockertypes.RegistryToken := EmptyString |}.

(** The token of a credential: its auth configuration as JSON in
    URL-safe base64. *)
Definition tokenOf (a : docker.Auth) : string :=
  (command.EncodeAuthToBase64 (authConfigOf a)).1.

End daemon.

(** ** Stand-ins for the imported packages, used by the examples *)

Module standin.

(** [s] up to its first [sep], and what follows it. *)
Fixpoint cut (sep : ascii) (s : string) : string * string :=
  match s with
  | EmptyString => (EmptyString, EmptyString)
  | String c s' =>
      if decide (c = sep) then (EmptyString, s')
      else let '(u, p) := cut sep s' in (String c u, p)
  end.

Definition names : name.API :=
  {| name.Registry := string;
     name.NewRegistry s :=
       if decide (s = EmptyString) then Ok "index.docker.io"
       else if decide (Strings.Count s "/" = 0) then Ok s
       else Failed (Err "registries must be valid RFC 3986 URI authorities");
     name.RegistryString r := r;
     name.Reference := string;
     name.ParseReference s :=
       if decide (s = EmptyString) then Failed (Err "could not parse reference") else Ok s;
     name.Repository := string;
     name.NewRepository s :=
       if decide (s = EmptyString) then Failed (Err "could not parse repository") else Ok s |}.

Definition isLetter (c : ascii) : bool :=
  let n := nat_of_ascii c in
  (Nat.leb 65 n && Nat.leb n 90) || (Nat.leb 97 n && Nat.leb n 122).

Definition isSchemeChar (c : ascii) : bool :=
  let n := nat_of_ascii c in
  (Nat.leb 48 n && Nat.leb n 57) || Nat.eqb n 43 || Nat.eqb n 45 || Nat.eqb n 46.

(** The scheme of a URL, as [url.Parse] finds it: letters, and after
    the first character digits, [+], [-] and [.], up to a [':'].  The
    result is what follows the [':'], or [None] when there is no
    scheme. *)
Fixpoint getScheme (first : bool) (s : string) : result (option string) :=
  match s with
  | EmptyString => Ok None
  | String c s' =>
      if isLetter c then getScheme false s'
      else if isSchemeChar c then (if first then Ok None else getScheme false s')
      else if decide (c = ":"%char)
           then (if first then Failed (Err "missing protocol scheme") else Ok (Some s'))
           else Ok None
  end.

(** The host of an authority that opens with [//]; it ends at the next
    [/]. *)
Definition authorityHost (rest : string) : string :=
  (cut "/" (String.substring 2 (String.length rest - 2) rest)).1.

(** [url.Parse] for keys without query, fragment or user information:
    after a scheme, [//] opens the host and anything else has none;
    without a scheme, [//] (but not [///]) opens the host, a first path
    segment with a [':'] is an error, and any other key is a path
    without a host. *)
Definition urls : url.API :=
  {| url.Parse s :=
       match getScheme true s with
       | Failed e => Failed e
       | Ok (Some rest) =>
           if String.prefix "//" rest
           then Ok {| url.Host := authorityHost rest |}
           else Ok {| url.Host := EmptyString |}
       | Ok None =>
           if String.prefix "//" s && negb (String.prefix "///" s)
           then Ok {| url.Host := authorityHost s |}
           else if negb (String.prefix "/" s)
                   && negb (Nat.eqb (Strings.Count (cut "/" s).1 ":") 0)
           then Failed (Err "first path segment in URL cannot contain colon")
           else Ok {| url.Host := EmptyString |}
       end |}.

(** A reference is a domain and a path; a name without a domain is an
    official image of the default registry. *)
Definition references : reference.API :=
  {| reference.Named := string * string;
     reference.ParseDockerRef s :=
       if decide (s = EmptyString) then Failed (Err "invalid reference format")
       else if decide (Strings.Count s "/" = 0) then Ok ("docker.io", "library/" +:+ s)
       else Ok (cut "/" s);
     reference.Domain named := named.1;
     reference.NamedString named := named.1 +:+ "/" +:+ named.2 +:+ ":latest" |}.

(** Enough of JSON quoting for strings without special characters. *)
Definition jsons : json.API :=
  {| json.quote s := String command.dquote (s +:+ String command.dquote EmptyString) |}.

Inductive ROption : Type :=
| OptAuth (b : authn.Basic)
| OptTransport (t : http.Transport).

(** The world of the stand-ins is the list of requests sent so far. *)
Inductive Request : Type :=
| CatalogRequest (regsitry last : string) (n : Z) (options : list ROption)
| GetRequest (ref : string) (options : list ROption)
| ListRequest (repo : string) (options : list ROption)
| DaemonPull (repo : string) (options : dockertypes.ImagePullOptions)
| DaemonRemove (id : string)
| RuntimePull (ref : string)
| RuntimeDelete (namespace ref : string).

Definition World : Type := list Request.

Definition isCatalogRequest (r : Request) : bool :=
  match r with CatalogRequest _ _ _ _ => true | _ => false end.

(** A registry: the repositories it lists, its own limit on the size of
    a page, and after how many answered catalog requests (if ever) it
    starts to fail. *)
Record Registry : Type := {
  repositories : list string;
  pageSize : nat;
  failsAfter : option nat
}.

Definition failing (sc : Registry) (w : World) : bool :=
  match failsAfter sc with
  | Some k => bool_decide (k ≤ length (List.filter isCatalogRequest w))%nat
  | None => false
  end.

Definition registry (sc : Registry) : remote.API World names :=
  @remote.Build_API World names
    ROption OptAuth OptTransport string
    (λ (ref : string) options w,
       ((Some ("manifest of " +:+ ref), None), w ++ [GetRequest ref options]))
    (λ (repo : string) options w,
       ((["latest"], None), w ++ [ListRequest repo options]))
    (λ (regsitry : string) last n options w,
       let w' := w ++ [CatalogRequest regsitry last n options] in
       if failing sc w then (([], Some (Err "connection reset by peer")), w')
       else ((take (Z.to_nat n `min` pageSize sc) (remaining last (repositories sc)), None), w')).

(** A daemon: whether it can be reached, whether it accepts pulls, and
    whether the stream of an accepted pull can be read to its end. *)
Record Daemon : Type := {
  reachable : bool;
  acceptsPull : bool;
  streamReads : bool
}.

Definition daemon (d : Daemon) : dockercli.API World :=
  {| dockercli.Client := unit;
     dockercli.NewClientWithOpts w :=
       (if reachable d then Ok tt else Failed (Err "cannot connect to the daemon"), w);
     dockercli.ReadCloser := string;
     dockercli.ImagePull c repo options w :=
       (if acceptsPull d then (Some "pull complete", None)
        else (None, Some (Err "pull access denied")),
        w ++ [DaemonPull repo options]);
     dockercli.ReadAll stream w :=
       (if streamReads d then (stream, None) else (EmptyString, Some (Err "unexpected EOF")), w);
     dockercli.ImageRemove c id options w := (None, w ++ [DaemonRemove id]) |}.

(** A runtime that pulls every image to the same digest. *)
Definition runtime : containerdlib.API World :=
  {| containerdlib.Client := unit;
     containerdlib.New address namespace w := (Ok tt, w);
     containerdlib.Image := string;
     containerdlib.Pull c ref w := (Ok "sha256:2c26b46b", w ++ [RuntimePull ref]);
     containerdlib.TargetDigest image := image;
     containerdlib.Delete c namespace ref w := (None, w ++ [RuntimeDelete namespace ref]) |}.

End standin.

(** ** Concrete clients, registries and daemons of the examples *)

Module example.

Definition threeRepos : standin.Registry :=
  {| standin.repositories := ["alpine"; "busybox"; "nginx"];
     standin.pageSize := 2;
     standin.failsAfter := None |}.

(** Answers one catalog request, then fails. *)
Definition flaky : standin.Registry :=
  {| standin.repositories := ["alpine"; "busybox"; "nginx"];
     standin.pageSize := 2;
     standin.failsAfter := Some 1 |}.

Definition up : standin.Daemon :=
  {| standin.reachable := true; standin.acceptsPull := true; standin.streamReads := true |}.

Definition refusing : standin.Daemon :=
  {| standin.reachable := true; standin.acceptsPull := false; standin.streamReads := true |}.

Definition admin : docker.Auth :=
  {| docker.Username := "admin"; docker.Password := "secret" |}.

Definition userPass : docker.Auth :=
  {| docker.Username := "user"; docker.Password := "pass" |}.

(** [dXNlcjpwYXNz] is [user:pass]. *)
Definition auths : list (string * dockertypes.AuthConfig) :=
  [("https://registry.example.com/v1/", authBlock "dXNlcjpwYXNz")].

(** [dXNlcjo=] is [user:], a credential with an empty password. *)
Definition authsNoPassword : list (string * dockertypes.AuthConfig) :=
  [("https://registry.example.com/v1/", authBlock "dXNlcjo=")].

Definition newClient (sc : standin.Registry) (file : docker.ConfigFile)
    (overrides : list (string * docker.Auth))
    : @docker.RegistryClient standin.World standin.names (standin.registry sc) :=
  (docker.NewRegistryClient (U := standin.urls) file
     ((λ o, docker.WithAuth o.1 o.2) <$> overrides)).1.1.

Definition runtimeClient : @containerd.RegistryClient standin.World standin.runtime :=
  @containerd.Build_RegistryClient standin.World standin.runtime tt.

Definition noFile : docker.ConfigFile :=
  docker.NotExist (Err "stat /root/.docker/config.json: no such file or directory").

End example.

(** ** Vocabulary of the further properties *)

Section diagnostics.

Context {N : name.API}.

(** The diagnostic an explicit override leaves when its address is not
    a registry. *)
Definition overrideError (o : string * docker.Auth) : option log.Entry :=
  match name.NewRegistry o.1 with
  | Ok _ => None
  | Failed err => Some (log.Error err)
  end.

End diagnostics.

Section config_file.

Context {W : Type} {N : name.API} {R : remote.API W N}.

(** The error met on the way to the entries of the config file, if any. *)
Definition fileError (file : docker.ConfigFile) : option error :=
  match file with
  | docker.NotExist err => Some err
  | docker.Unreadable err => Some err
  | docker.Malformed err => Some err
  | docker.Parsed _ => None
  end.

End config_file.

(** ** Further scenarios of the examples *)

Module scenario.

(** A registry that lists the same name again and again: after the
    cursor [alpine] there is always another [alpine]. *)
Definition repeating : standin.Registry :=
  {| standin.repositories := ["alpine"; "alpine"];
     standin.pageSize := 1;
     standin.failsAfter := None |}.

(** A daemon whose streams break off. *)
Definition truncating : standin.Daemon :=
  {| standin.reachable := true; standin.acceptsPull := true; standin.streamReads := false |}.

End scenario.

Module fixture.

(** A client with an empty store and no request options. *)
Definition blank : @docker.RegistryClient standin.World standin.names
                     (standin.registry example.threeRepos) :=
  @docker.Build_RegistryClient standin.World standin.names
    (standin.registry example.threeRepos) ∅ [].

Definition withAuth (address : string) (a : docker.Auth)
    : @docker.Option standin.World standin.names (standin.registry example.threeRepos) :=
  docker.WithAuth address a.

(** A client for the registry [sc], built without a config file. *)
Definition clientOf (sc : standin.Registry) (overrides : list (string * docker.Auth))
    : @docker.RegistryClient standin.World standin.names (standin.registry sc) :=
  example.newClient sc example.noFile overrides.

(** The request options of every new client. *)
Definition transport (sc : standin.Registry) : list standin.ROption :=
  [standin.OptTransport docker.defaultTransport].

End fixture.

(** ** A registry with the cursor of the registry API *)

Module lexical.

(** Whether every name is lexically before the names after it. *)
Fixpoint ascending (rs : list string) : bool :=
  match rs with
  | [] => true
  | r :: rs' => forallb (String.ltb r) rs' && ascending rs'
  end.

(** A page holds the first names lexically after the cursor, up to the
    size asked for and the registry's own limit; a cursor need not be a
    name of the registry. *)
Definition registry (sc : standin.Registry) : remote.API standin.World standin.names :=
  @remote.Build_API standin.World standin.names
    standin.ROption standin.OptAuth standin.OptTransport string
    (λ (ref : string) options w,
       ((Some ("manifest of " +:+ ref), None), w ++ [standin.GetRequest ref options]))
    (λ (repo : string) options w,
       ((["latest"], None), w ++ [standin.ListRequest repo options]))
    (λ (regsitry : string) last n options w,
       ((take (Z.to_nat n `min` standin.pageSize sc)
           (List.filter (String.ltb last) (standin.repositories sc)), None),
        w ++ [standin.CatalogRequest regsitry last n options])).

(** A client for that registry, built without a config file. *)
Definition client (sc : standin.Registry)
    : @docker.RegistryClient standin.World standin.names (registry sc) :=
  (docker.NewRegistryClient (U := standin.urls) example.noFile []).1.1.

End lexical.

(** * Properties *)

(** ** Strings *)

Lemma string_ind3 (P : string → Prop) :
  P EmptyString →
  (∀ a, P (String a EmptyString)) →
  (∀ a b, P (String a (String b EmptyString))) →
  (∀ a b c s, P s → P (String a (String b (String c s)))) →
  ∀ s, P s.
Proof.
  intros H0 H1 H2 H3.
  fix IH 1. intros [|a [|b [|c s]]]; [apply H0 | apply H1 | apply H2 | apply H3, IH].
Qed.

Lemma Split_length s sep : length (Strings.Split s sep) = S (Strings.Count s sep).
Proof.
  induction s as [|c s IH]; simpl; [done|].
  destruct (decide (c = sep)); simpl; [by rewrite IH|].
  destruct (Strings.Split s sep); simpl in *; lia.
Qed.

Lemma Split_no_sep s sep : Strings.Count s sep = 0 → Strings.Split s sep = [s].
Proof.
  induction s as [|c s IH]; simpl; [done|].
  destruct (decide (c = sep)); [done|]. simpl. intros H. by rewrite IH.
Qed.

Lemma Split_first s t sep :
  Strings.Count s sep = 0 →
  Strings.Split (s +:+ String sep t) sep = s :: Strings.Split t sep.
Proof.
  induction s as [|c s IH]; simpl.
  - intros _. by rewrite decide_True.
  - destruct (decide (c = sep)); [done|]. simpl. intros H. by rewrite IH.
Qed.

Lemma Count_app s t sep :
  Strings.Count (s +:+ t) sep = Strings.Count s sep + Strings.Count t sep.
Proof. induction s as [|c s IH]; simpl; [done|]. rewrite IH. lia. Qed.

Lemma cutColon_Split s :
  Strings.Count s ":" = 1 → Strings.Split s ":" = [(cutColon s).1; (cutColon s).2].
Proof.
  induction s as [|c s IH]; simpl; [done|].
  destruct (decide (c = ":"%char)); simpl.
  - intros H. rewrite Split_no_sep; [done|lia].
  - intros H. rewrite IH by done. by destruct (cutColon s).
Qed.

(** ** Base64 *)

Lemma decodeChar_encodeChar x :
  base64.decodeChar base64.StdEncoding (base64.encodeChar base64.StdEncoding x) = Some x.
Proof. destruct x as [[] [] [] [] [] []]; vm_compute; reflexivity. Qed.

Lemma encodeChar_not_newline x :
  base64.isNewline (base64.encodeChar base64.StdEncoding x) = false.
Proof. destruct x as [[] [] [] [] [] []]; vm_compute; reflexivity. Qed.

Lemma EncodeToString_no_newline s :
  base64.stripNewlines (base64.EncodeToString base64.StdEncoding s)
  = base64.EncodeToString base64.StdEncoding s.
Proof.
  induction s as [|a|a b|a b c s IH] using string_ind3.
  - done.
  - destruct a. cbn [base64.EncodeToString base64.split3 base64.zero base64.stripNewlines].
    by rewrite !encodeChar_not_newline.
  - destruct a, b. cbn [base64.EncodeToString base64.split3 base64.zero base64.stripNewlines].
    by rewrite !encodeChar_not_newline.
  - destruct a, b, c.
    cbn [base64.EncodeToString base64.split3 base64.stripNewlines].
    rewrite !encodeChar_not_newline. by rewrite IH.
Qed.

Lemma decodeQuanta_EncodeToString s :
  base64.decodeQuanta base64.StdEncoding (base64.EncodeToString base64.StdEncoding s)
  = Some s.
Proof.
  induction s as [|a|a b|a b c s IH] using string_ind3.
  - done.
  - destruct a. cbn [base64.EncodeToString base64.split3 base64.zero base64.decodeQuanta].
    by rewrite !decodeChar_encodeChar.
  - destruct a, b. cbn [base64.EncodeToString base64.split3 base64.zero base64.decodeQuanta].
    by rewrite !decodeChar_encodeChar.
  - destruct a, b, c.
    cbn [base64.EncodeToString base64.split3 base64.decodeQuanta].
    rewrite !decodeChar_encodeChar. by rewrite IH.
Qed.

Lemma DecodeString_EncodeToString s :
  base64.DecodeString base64.StdEncoding (base64.EncodeToString base64.StdEncoding s)
  = Some s.
Proof.
  unfold base64.DecodeString.
  by rewrite EncodeToString_no_newline, decodeQuanta_EncodeToString.
Qed.

Lemma EncodeToString_nonempty alphabet s :
  s ≠ EmptyString → base64.EncodeToString alphabet s ≠ EmptyString.
Proof.
  destruct s as [|a [|b [|c s]]]; [done|..]; intros _; simpl.
  - by destruct (base64.split3 a base64.zero base64.zero) as [[[??]?]?].
  - by destruct (base64.split3 a b base64.zero) as [[[??]?]?].
  - by destruct (base64.split3 a b c) as [[[??]?]?].
Qed.

(** ** The credential store *)

Section store.

Context {W : Type} {N : name.API} {U : url.API} {R : remote.API W N}.

Implicit Types (c : docker.RegistryClient) (d server : string)
  (config : dockertypes.AuthConfig) (store : gmap string docker.Auth).

Lemma lastWrite_app d (ws1 ws2 : list (string * docker.Auth)) :
  lastWrite d (ws1 ++ ws2)
  = match lastWrite d ws2 with Some a => Some a | None => lastWrite d ws1 end.
Proof.
  induction ws1 as [|[d' a] ws1 IH]; simpl.
  - by destruct (lastWrite d ws2).
  - rewrite IH. by destruct (lastWrite d ws2).
Qed.

Lemma lastWrite_elem d (ws : list (string * docker.Auth)) a :
  lastWrite d ws = Some a → (d, a) ∈ ws.
Proof.
  induction ws as [|[d' a'] ws IH]; simpl; [done|].
  destruct (lastWrite d ws) as [x|].
  - intros [= ->]. right. by apply IH.
  - case_decide; [|done]. intros [= ->]. subst. left.
Qed.

Lemma lastWrite_is_Some d (ws : list (string * docker.Auth)) a :
  (d, a) ∈ ws → is_Some (lastWrite d ws).
Proof.
  induction ws as [|[d' a'] ws IH]; simpl.
  - by intros ?%elem_of_nil.
  - intros [[= <- <-]|Hin]%elem_of_cons.
    + destruct (lastWrite d ws); [by eexists|]. rewrite decide_True by done. by eexists.
    + destruct (IH Hin) as [x ->]. by eexists.
Qed.

Lemma applyWrites_lookup d (ws : list (string * docker.Auth)) store :
  applyWrites ws store !! d
  = match lastWrite d ws with Some a => Some a | None => store !! d end.
Proof.
  unfold applyWrites. revert store.
  induction ws as [|[d' a] ws IH]; intros store; simpl; [done|].
  rewrite IH. destruct (lastWrite d ws); [done|].
  case_decide; subst; [by rewrite lookup_insert_eq | by rewrite lookup_insert_ne].
Qed.

Lemma entriesFor_lookup d store a :
  store !! d = Some a → entriesFor d store = [(d, a)].
Proof.
  intros Hd. unfold entriesFor.
  apply Permutation_singleton_r. symmetry.
  apply NoDup_Permutation.
  - apply NoDup_singleton.
  - apply NoDup_filter, NoDup_map_to_list.
  - intros [k v]. rewrite list_elem_of_singleton, list_elem_of_filter, elem_of_map_to_list.
    simpl. split.
    + by intros [= -> ->].
    + intros [-> Hk]. congruence.
Qed.

(** A config-file entry changes the store by exactly the write it asks
    for. *)
Lemma loadAuthConfig_fileWrite c server config :
  (docker.loadAuthConfig c server config).1
  = match fileWrite (server, config) with
    | Some (d, a) => {| docker.auth := <[d := a]> (docker.auth c);
                        docker.options := docker.options c |}
    | None => c
    end.
Proof.
  unfold docker.loadAuthConfig, fileWrite, canonicalDomain, credentialOf. simpl.
  destruct (name.NewRegistry _) as [registry|err]; [|done].
  destruct (decide (dockertypes.Auth config ≠ EmptyString)) as [Hne|Heq].
  - destruct (base64.DecodeString _ _) as [s|]; [|done].
    rewrite Split_length.
    destruct (decide (Strings.Count s ":" = 1)) as [H1|H1].
    + rewrite decide_True by lia. simpl.
      rewrite (cutColon_Split s H1). simpl. by destruct (cutColon s).
    + rewrite decide_False by lia. done.
  - apply dec_stable in Heq. rewrite Heq. done.
Qed.

Lemma loadAuthConfigs_auth entries c :
  docker.auth (docker.loadAuthConfigs entries c).1
  = applyWrites (omap fileWrite entries) (docker.auth c).
Proof.
  revert c. induction entries as [|[server config] entries IH]; intros c; simpl; [done|].
  pose proof (loadAuthConfig_fileWrite c server config) as H1.
  destruct (docker.loadAuthConfig c server config) as [c1 l1]. simpl in H1.
  specialize (IH c1). destruct (docker.loadAuthConfigs entries c1) as [c2 l2].
  simpl in *. rewrite IH, H1.
  by destruct (fileWrite (server, config)) as [[d a]|].
Qed.

Lemma applyOptions_WithAuth_auth (overrides : list (string * docker.Auth)) c :
  docker.auth (docker.applyOptions ((λ o, docker.WithAuth o.1 o.2) <$> overrides) c).1
  = applyWrites (omap overrideWrite overrides) (docker.auth c).
Proof.
  revert c. induction overrides as [|[address a] overrides IH]; intros c; simpl; [done|].
  unfold docker.WithAuth at 1, overrideWrite at 1. simpl.
  destruct (name.NewRegistry address) as [registry|err].
  - rewrite IH. done.
  - specialize (IH c). destruct (docker.applyOptions _ c) as [c' l]. done.
Qed.

Lemma applyWrites_app (ws1 ws2 : list (string * docker.Auth)) store :
  applyWrites (ws1 ++ ws2) store = applyWrites ws2 (applyWrites ws1 store).
Proof. apply foldl_app. Qed.

(** The store of a new client is the empty store after the writes of the
    overrides, then those of the config file. *)
Lemma NewRegistryClient_auth (overrides : list (string * docker.Auth)) entries :
  docker.auth (docker.NewRegistryClient (docker.Parsed entries)
                 ((λ o, docker.WithAuth o.1 o.2) <$> overrides)).1.1
  = applyWrites (omap overrideWrite overrides ++ omap fileWrite entries) ∅.
Proof.
  unfold docker.NewRegistryClient.
  pose proof (applyOptions_WithAuth_auth overrides
                {| docker.auth := ∅; docker.options := [] |}) as H1.
  destruct (docker.applyOptions _ _) as [c1 l1].
  pose proof (loadAuthConfigs_auth entries c1) as H2.
  destruct (docker.loadAuthConfigs entries c1) as [c2 l2].
  simpl in *. by rewrite H2, H1, applyWrites_app.
Qed.

End store.

Section store_claims.

Context {W : Type} {N : name.API} {U : url.API} {R : remote.API W N}.

Implicit Types (c : docker.RegistryClient) (d server : string)
  (config : dockertypes.AuthConfig) (store : gmap string docker.Auth).

Lemma credentialOf_empty : credentialOf EmptyString = None.
Proof. reflexivity. Qed.

Lemma entriesFor_at_most_one d store : (length (entriesFor d store) ≤ 1)%nat.
Proof.
  destruct (store !! d) as [a|] eqn:Hd.
  - by rewrite (entriesFor_lookup d store a Hd).
  - unfold entriesFor.
    destruct (filter _ _) as [|[k v] l] eqn:Hf; simpl; [lia|].
    assert ((k, v) ∈ filter (λ kv : string * docker.Auth, kv.1 = d) (map_to_list store)) as Hin
      by (rewrite Hf; left).
    apply list_elem_of_filter in Hin as [Hk Hin]. simpl in Hk. subst k.
    apply elem_of_map_to_list in Hin. congruence.
Qed.

(** C2: after construction the store holds at most one entry for any
    domain, and its value is the one written last, overrides first and
    config-file entries after them; for a domain written both by an
    explicit override and by the config file exactly one credential is
    kept, the last one written, which comes from the file. *)
Theorem credential_store_last_writer_wins
    (overrides : list (string * docker.Auth))
    (entries : list (string * dockertypes.AuthConfig)) d (a f : docker.Auth) :
  (d, a) ∈ omap overrideWrite overrides →
  (d, f) ∈ omap fileWrite entries →
  let store :=
    docker.auth (docker.NewRegistryClient (docker.Parsed entries)
                   ((λ o, docker.WithAuth o.1 o.2) <$> overrides)).1.1 in
  (∀ d', (length (entriesFor d' store) ≤ 1)%nat
         ∧ store !! d' = lastWrite d' (omap overrideWrite overrides ++ omap fileWrite entries))
  ∧ ∃ kept,
      entriesFor d store = [(d, kept)]
      ∧ lastWrite d (omap overrideWrite overrides ++ omap fileWrite entries) = Some kept
      ∧ (d, kept) ∈ omap fileWrite entries.
Proof.
  intros Ha Hf store.
  assert (∀ d', store !! d'
                = lastWrite d' (omap overrideWrite overrides ++ omap fileWrite entries)) as Hlast.
  { intros d'. unfold store. rewrite NewRegistryClient_auth, applyWrites_lookup.
    rewrite lookup_empty. by destruct (lastWrite d' _). }
  split.
  - intros d'. split; [apply entriesFor_at_most_one | apply Hlast].
  - destruct (lastWrite_is_Some d _ f Hf) as [kept Hkept].
    exists kept. split_and!.
    + apply entriesFor_lookup. by rewrite Hlast, lastWrite_app, Hkept.
    + by rewrite lastWrite_app, Hkept.
    + by apply lastWrite_elem.
Qed.

(** C3: an auth block that is the base64 encoding of [user:pass], with
    [user] and [pass] free of [':'], is loaded as exactly the credential
    [{user, pass}] for the entry's domain; an auth block whose decoding
    does not hold exactly one [':'] leaves the store as it was. *)
Theorem auth_block_round_trip c server d (user pass s : string) :
  canonicalDomain server = Some d →
  Strings.Count user ":" = 0 →
  Strings.Count pass ":" = 0 →
  Strings.Count s ":" ≠ 1 →
  (∀ config,
     dockertypes.Auth config
       = base64.EncodeToString base64.StdEncoding (user +:+ ":" +:+ pass) →
     docker.loadAuthConfig c server config
     = ({| docker.auth :=
             <[d := {| docker.Username := user; docker.Password := pass |}]> (docker.auth c);
           docker.options := docker.options c |}, []))
  ∧ (∀ server' config,
       base64.DecodeString base64.StdEncoding (dockertypes.Auth config) = Some s →
       (docker.loadAuthConfig c server' config).1 = c).
Proof.
  intros Hd Hu Hp Hs. split.
  - intros config Hauth. unfold canonicalDomain in Hd.
    unfold docker.loadAuthConfig.
    destruct (name.NewRegistry _) as [registry|err]; [|done].
    injection Hd as <-. rewrite Hauth.
    rewrite decide_True by (apply EncodeToString_nonempty; by destruct user).
    rewrite DecodeString_EncodeToString.
    change (user +:+ ":" +:+ pass) with (user +:+ String ":"%char pass).
    rewrite (Split_first user pass ":"%char Hu), (Split_no_sep pass ":"%char Hp).
    done.
  - intros server' config Hdec.
    rewrite loadAuthConfig_fileWrite. unfold fileWrite, credentialOf. simpl.
    rewrite Hdec. rewrite decide_False by done. by destruct (canonicalDomain server').
Qed.

(** C10: a config-file entry with an empty auth block leaves the client
    as it was; an entry that changes the store has a non-empty auth
    block that decodes to two [':']-separated parts; and a domain whose
    config-file entries all have empty auth blocks keeps the credential
    of its last explicit override. *)
Theorem empty_auth_block_never_written :
  (∀ c server config,
     dockertypes.Auth config = EmptyString →
     (docker.loadAuthConfig c server config).1 = c)
  ∧ (∀ c server config,
       docker.auth (docker.loadAuthConfig c server config).1 ≠ docker.auth c →
       dockertypes.Auth config ≠ EmptyString
       ∧ ∃ s, base64.DecodeString base64.StdEncoding (dockertypes.Auth config) = Some s
              ∧ length (Strings.Split s ":") = 2)
  ∧ (∀ (overrides : list (string * docker.Auth)) entries d,
       (∀ server config,
          (server, config) ∈ entries →
          canonicalDomain server = Some d →
          dockertypes.Auth config = EmptyString) →
       docker.auth (docker.NewRegistryClient (docker.Parsed entries)
                      ((λ o, docker.WithAuth o.1 o.2) <$> overrides)).1.1 !! d
       = lastWrite d (omap overrideWrite overrides)).
Proof.
  split_and!.
  - intros c server config Hempty.
    rewrite loadAuthConfig_fileWrite. unfold fileWrite. simpl.
    rewrite Hempty, credentialOf_empty. by destruct (canonicalDomain server).
  - intros c server config Hchanged.
    rewrite loadAuthConfig_fileWrite in Hchanged. unfold fileWrite in Hchanged.
    simpl in Hchanged.
    destruct (canonicalDomain server) as [d|]; [|done].
    destruct (credentialOf (dockertypes.Auth config)) as [a|] eqn:Hcred; [|done].
    split.
    + intros Hempty. by rewrite Hempty, credentialOf_empty in Hcred.
    + unfold credentialOf in Hcred.
      destruct (base64.DecodeString _ _) as [s|]; [|done].
      case_decide as Hcount; [|done].
      exists s. by rewrite Split_length, Hcount.
  - intros overrides entries d Hempty.
    rewrite NewRegistryClient_auth, applyWrites_lookup, lastWrite_app, lookup_empty.
    destruct (lastWrite d (omap fileWrite entries)) as [a|] eqn:Hlast.
    + exfalso. apply lastWrite_elem, list_elem_of_omap in Hlast as ([server config] & Hin & Hw).
      unfold fileWrite in Hw. simpl in Hw.
      destruct (canonicalDomain server) as [d'|] eqn:Hd; [|done].
      destruct (credentialOf (dockertypes.Auth config)) as [a'|] eqn:Hcred; [|done].
      injection Hw as -> ->.
      by rewrite (Hempty server config Hin Hd), credentialOf_empty in Hcred.
    + by destruct (lastWrite d (omap overrideWrite overrides)).
Qed.

End store_claims.

(** ** Listing the catalog *)

Section catalog_claims.

Context {W : Type} {N : name.API} {R : remote.API W N}.

Implicit Types (rs page repos : list string) (last : string) (w : W).

Lemma after_middle rs1 x rs2 : x ∉ rs1 → after x (rs1 ++ x :: rs2) = rs2.
Proof.
  induction rs1 as [|r rs1 IH]; simpl; intros Hx.
  - by rewrite decide_True.
  - rewrite decide_False by set_solver. apply IH. set_solver.
Qed.

Lemma last_snoc page x : List.last (page ++ [x]) EmptyString = x.
Proof. apply last_last. Qed.

(** After a non-empty page the cursor stands just behind that page. *)
Lemma remaining_advance rs repos page rest :
  NoDup rs → EmptyString ∉ rs → page ≠ [] →
  rs = repos ++ page ++ rest →
  remaining (List.last page EmptyString) rs = rest.
Proof.
  intros Hnodup Hempty Hpage Hrs.
  destruct page as [|x page _] using rev_ind; [done|].
  rewrite last_snoc. rewrite <- (assoc_L (++)) in Hrs. simpl in Hrs.
  rewrite (assoc_L (++)) in Hrs. subst rs.
  unfold remaining. rewrite decide_False.
  - apply after_middle. apply NoDup_app in Hnodup as (_ & Hdisj & _).
    intros Hin. apply (Hdisj x Hin). left.
  - intros ->. apply Hempty. set_solver.
Qed.

Lemma requestOptions_sent (client : docker.RegistryClient) key options0 :
  (let options1 := options0 ++ docker.options client in
   let auth0 := match docker.auth client !! key with
                | Some v => v | None => docker.zeroAuth end in
   if decide (docker.Username auth0 ≠ EmptyString ∧ docker.Password auth0 ≠ EmptyString)
   then options1 ++ [remote.WithAuth {| authn.Username := docker.Username auth0;
                                        authn.Password := docker.Password auth0 |}]
   else options1)
  = requestOptions client key options0.
Proof.
  unfold requestOptions. cbv zeta.
  destruct (docker.auth client !! key) as [v|].
  - destruct (decide (docker.Username v = EmptyString ∨ docker.Password v = EmptyString))
      as [Hor|Hnor].
    + rewrite decide_False; [done|]. intros [??]. by destruct Hor.
    + rewrite decide_True; [by rewrite (assoc_L (++))|].
      split; intros ?; apply Hnor; auto.
  - rewrite decide_False; [done|]. by intros [? _].
Qed.

Lemma GetRepos_catalogLoop fuel (client : docker.RegistryClient) address options0 w :
  docker.GetRepos fuel client address options0 w
  = match name.NewRegistry address with
    | Failed err => Some (([], Some err), w)
    | Ok regsitry =>
        docker.catalogLoop fuel regsitry (requestOptions client address options0)
          EmptyString [] w
    end.
Proof. unfold docker.GetRepos. by rewrite requestOptions_sent. Qed.

(** One turn of the loop: a non-empty page is appended and its last
    entry becomes the cursor; an empty page or an error ends the loop. *)
Lemma catalogLoop_page fuel regsitry options last repos w page w1 :
  remote.CatalogPage regsitry last 10000 options w = ((page, None), w1) →
  page ≠ [] →
  docker.catalogLoop (S fuel) regsitry options last repos w
  = docker.catalogLoop fuel regsitry options (List.last page EmptyString) (repos ++ page) w1.
Proof.
  intros Hpage Hne. cbn [docker.catalogLoop]. rewrite Hpage.
  rewrite decide_True; [done|]. destruct page; [done|simpl; lia].
Qed.

Lemma catalogLoop_empty_page fuel regsitry options last repos w w1 :
  remote.CatalogPage regsitry last 10000 options w = (([], None), w1) →
  docker.catalogLoop (S fuel) regsitry options last repos w = Some ((repos, None), w1).
Proof. intros Hpage. cbn [docker.catalogLoop]. by rewrite Hpage. Qed.

Lemma catalogLoop_error fuel regsitry options last repos w junk e w1 :
  remote.CatalogPage regsitry last 10000 options w = ((junk, Some e), w1) →
  docker.catalogLoop (S fuel) regsitry options last repos w = Some ((repos, Some e), w1).
Proof. intros Hpage. cbn [docker.catalogLoop]. by rewrite Hpage. Qed.

(** More fuel does not change a result. *)
Lemma catalogLoop_fuel_mono fuel fuel' regsitry options last repos w r :
  docker.catalogLoop fuel regsitry options last repos w = Some r →
  (fuel ≤ fuel')%nat →
  docker.catalogLoop fuel' regsitry options last repos w = Some r.
Proof.
  revert fuel' last repos w.
  induction fuel as [|fuel IH]; intros fuel' last repos w Hrun Hle; [done|].
  destruct fuel' as [|fuel']; [lia|].
  cbn [docker.catalogLoop] in *.
  destruct (remote.CatalogPage regsitry last 10000 options w) as [[page [e|]] w1]; [done|].
  destruct (decide (0 < length page)); [|done].
  apply IH; [done|lia].
Qed.

(** The last name of a page is one of the names listed. *)
Lemma last_page_listed rs repos page rest :
  page ≠ [] → rs = repos ++ page ++ rest → List.last page EmptyString ∈ rs.
Proof.
  intros Hne ->. destruct page as [|x page _] using rev_ind; [done|].
  rewrite last_snoc. set_solver.
Qed.

Lemma catalogLoop_complete regsitry options rs :
  NoDup rs → EmptyString ∉ rs → servesCatalog regsitry options rs →
  ∀ fuel last repos w,
    last = EmptyString ∨ last ∈ rs →
    repos ++ remaining last rs = rs →
    length (remaining last rs) < fuel →
    ∃ w', docker.catalogLoop fuel regsitry options last repos w = Some ((rs, None), w').
Proof.
  intros Hnodup Hempty Hserves.
  induction fuel as [|fuel IH]; intros last repos w Hcursor Hinv Hfuel; [lia|].
  destruct (Hserves last w Hcursor) as (page & w1 & Hpage & [rest Hrest] & Hprogress).
  cbn [docker.catalogLoop]. rewrite Hpage.
  destruct (decide (0 < length page)) as [Hlen|Hlen].
  - assert (page ≠ []) as Hne by (intros ->; simpl in Hlen; lia).
    assert (rs = repos ++ page ++ rest) as Hrs by (by rewrite <- Hrest).
    assert (remaining (List.last page EmptyString) rs = rest) as Hnext.
    { by apply (remaining_advance rs repos page rest). }
    apply IH.
    + right. by apply (last_page_listed rs repos page rest).
    + by rewrite Hnext, <- (assoc_L (++)), <- Hrest.
    + rewrite Hnext. rewrite Hrest, length_app in Hfuel. lia.
  - assert (page = []) as -> by (destruct page; [done|simpl in Hlen; lia]).
    destruct (remaining last rs) as [|r rem] eqn:Hrem.
    + rewrite app_nil_r in Hinv. subst repos. by eexists.
    + by destruct Hprogress.
Qed.

(** C1: against a registry that serves the repositories [rs], none
    named by the empty string and none listed twice, [GetRepos] leaves
    its loop within [length rs + 1] requests and returns exactly [rs], in
    the registry's order, with no error.  The registry is only asked to
    answer well to the empty cursor and to cursors that are names of
    [rs], as a registry with a lexical cursor does. *)
Theorem GetRepos_complete fuel (client : docker.RegistryClient) address options0
    regsitry rs w :
  NoDup rs →
  EmptyString ∉ rs →
  name.NewRegistry address = Ok regsitry →
  servesCatalog regsitry (requestOptions client address options0) rs →
  length rs < fuel →
  ∃ w', docker.GetRepos fuel client address options0 w = Some ((rs, None), w').
Proof.
  intros Hnodup Hempty Hreg Hserves Hfuel.
  rewrite GetRepos_catalogLoop, Hreg.
  apply (catalogLoop_complete regsitry _ rs Hnodup Hempty Hserves); [by left|done..].
Qed.

Lemma catalogLoop_fetched regsitry options last w got last' w1 junk e w2 :
  fetched regsitry options last w got last' w1 →
  remote.CatalogPage regsitry last' 10000 options w1 = ((junk, Some e), w2) →
  ∀ fuel repos,
    length got < fuel →
    docker.catalogLoop fuel regsitry options last repos w = Some ((repos ++ got, Some e), w2).
Proof.
  intros Hrun Hfail.
  induction Hrun as [last w|last w page w1 got last' w' Hpage Hne Hrun IH];
    intros fuel repos Hfuel.
  - destruct fuel as [|fuel]; [simpl in Hfuel; lia|].
    cbn [docker.catalogLoop]. rewrite Hfail. by rewrite app_nil_r.
  - destruct fuel as [|fuel]; [lia|].
    cbn [docker.catalogLoop]. rewrite Hpage.
    rewrite length_app in Hfuel.
    assert (0 < length page) as Hlen by (destruct page; [done|simpl; lia]).
    rewrite decide_True by done.
    rewrite (IH Hfail fuel (repos ++ page)) by lia.
    by rewrite (assoc_L (++)).
Qed.

(** C5: when the catalog requests of [GetRepos] are first answered by
    non-empty pages and the next request fails, [GetRepos] returns the
    repositories of the pages already fetched together with that error. *)
Theorem GetRepos_partial_on_error fuel (client : docker.RegistryClient) address options0
    regsitry w got last w1 junk e w2 :
  name.NewRegistry address = Ok regsitry →
  fetched regsitry (requestOptions client address options0) EmptyString w got last w1 →
  remote.CatalogPage regsitry last 10000 (requestOptions client address options0) w1
    = ((junk, Some e), w2) →
  length got < fuel →
  docker.GetRepos fuel client address options0 w = Some ((got, Some e), w2).
Proof.
  intros Hreg Hrun Hfail Hfuel.
  rewrite GetRepos_catalogLoop, Hreg.
  by rewrite (catalogLoop_fetched _ _ _ _ _ _ _ _ _ _ Hrun Hfail fuel []).
Qed.

End catalog_claims.

(** ** Requests to the registry *)

Section request_claims.

Context {W : Type} {N : name.API} {F : reference.API} {R : remote.API W N}.

Lemma GetRepo_request (client : docker.RegistryClient) repo options0 named w :
  reference.ParseDockerRef repo = Ok named →
  docker.GetRepo client repo options0 w
  = match name.ParseReference repo with
    | Failed err => ((None, Some err), w)
    | Ok ref => remote.Get ref (requestOptions client (reference.Domain named) options0) w
    end.
Proof. intros Hnamed. unfold docker.GetRepo. by rewrite Hnamed, requestOptions_sent. Qed.

Lemma GetRepoTags_request (client : docker.RegistryClient) repo options0 named w :
  reference.ParseDockerRef repo = Ok named →
  docker.GetRepoTags client repo options0 w
  = match name.NewRepository repo with
    | Failed err => (([], Some err), w)
    | Ok repoR => remote.List repoR (requestOptions client (reference.Domain named) options0) w
    end.
Proof. intros Hnamed. unfold docker.GetRepoTags. by rewrite Hnamed, requestOptions_sent. Qed.

(** C6, as amended: [GetRepo] and [GetRepoTags] look the domain of the
    parsed reference up in the store; an entry whose username and
    password are both non-empty is attached to the request as basic
    authentication, after the caller's and the client's options; with no
    entry, or an entry with an empty username or an empty password, the
    request carries the caller's and the client's options only.  (No
    request is made when the second parse of the reference fails.) *)
Theorem GetRepo_GetRepoTags_basic_auth (client : docker.RegistryClient) repo options0
    named w :
  reference.ParseDockerRef repo = Ok named →
  let stored := docker.auth client !! reference.Domain named in
  let get sent :=
    match name.ParseReference repo with
    | Failed err => ((None, Some err), w)
    | Ok ref => remote.Get ref sent w
    end in
  let list sent :=
    match name.NewRepository repo with
    | Failed err => (([], Some err), w)
    | Ok repoR => remote.List repoR sent w
    end in
  (∀ v, stored = Some v →
        docker.Username v ≠ EmptyString → docker.Password v ≠ EmptyString →
        let basic := remote.WithAuth {| authn.Username := docker.Username v;
                                        authn.Password := docker.Password v |} in
        docker.GetRepo client repo options0 w
        = get (options0 ++ docker.options client ++ [basic])
        ∧ docker.GetRepoTags client repo options0 w
          = list (options0 ++ docker.options client ++ [basic]))
  ∧ ((stored = None
      ∨ ∃ v, stored = Some v
             ∧ (docker.Username v = EmptyString ∨ docker.Password v = EmptyString)) →
     docker.GetRepo client repo options0 w = get (options0 ++ docker.options client)
     ∧ docker.GetRepoTags client repo options0 w = list (options0 ++ docker.options client)).
Proof.
  intros Hnamed stored get list.
  rewrite (GetRepo_request _ _ _ _ _ Hnamed), (GetRepoTags_request _ _ _ _ _ Hnamed).
  fold (get (requestOptions client (reference.Domain named) options0)).
  fold (list (requestOptions client (reference.Domain named) options0)).
  unfold requestOptions. fold stored. split.
  - intros v -> Hu Hp. rewrite decide_False; [done|]. by intros [?|?].
  - intros [->|(v & -> & Hor)]; [done|]. by rewrite decide_True.
Qed.

End request_claims.

(** ** Pulling through the daemon *)

Section daemon_claims.

Context {W : Type} {N : name.API} {F : reference.API} {R : remote.API W N}
        {D : dockercli.API W} {J : json.API}.

Lemma marshalAuthConfig_brace a :
  ∃ rest, command.marshalAuthConfig a = String "{"%char rest.
Proof. unfold command.marshalAuthConfig. by eexists. Qed.

(** The token of a credential is never the empty string. *)
Lemma tokenOf_nonempty (a : docker.Auth) : tokenOf a ≠ EmptyString.
Proof.
  unfold tokenOf, command.EncodeAuthToBase64. cbn [fst].
  apply EncodeToString_nonempty.
  destruct (marshalAuthConfig_brace (authConfigOf a)) as [rest ->]. done.
Qed.

(** The token sent when the store has no credential: the encoding of
    the empty JSON object. *)
Lemma tokenOf_zeroAuth : tokenOf docker.zeroAuth = "e30=".
Proof. reflexivity. Qed.

(** The request [Pull] sends to a reachable daemon and what it makes of
    the answer. *)
Lemma Pull_request (client : docker.RegistryClient) repo named c w w1 :
  dockercli.NewClientWithOpts w = (Ok c, w1) →
  reference.ParseDockerRef repo = Ok named →
  docker.Pull client repo w
  = let auth0 := match docker.auth client !! reference.Domain named with
                 | Some v => v | None => docker.zeroAuth end in
    let '((closer, _), w2) :=
      dockercli.ImagePull c repo {| dockertypes.RegistryAuth := tokenOf auth0 |} w1 in
    match closer with
    | None => (Panicked, w2)
    | Some stream =>
        let '((_, err2), w3) := dockercli.ReadAll stream w2 in
        match err2 with
        | Some err => (Returned (EmptyString, Some err), w3)
        | None => (Returned (reference.NamedString named, None), w3)
        end
    end.
Proof.
  intros Hc Hnamed. unfold docker.Pull. rewrite Hc, Hnamed. cbv zeta.
  set (auth0 := match docker.auth client !! reference.Domain named with
                | Some v => v | None => docker.zeroAuth end).
  change (command.EncodeAuthToBase64 _) with (tokenOf auth0, @None error).
  cbv beta iota.
  rewrite decide_False by apply tokenOf_nonempty.
  by destruct (dockercli.ImagePull _ _ _ _) as [[closer err1] w2].
Qed.

(** C7: when the reference parses, a [Pull] that returns without an
    error returns the parsed reference rendered back to a string. *)
Theorem Pull_returns_canonical_reference (client : docker.RegistryClient) repo named
    id w w' :
  reference.ParseDockerRef repo = Ok named →
  docker.Pull client repo w = (Returned (id, None), w') →
  id = reference.NamedString named.
Proof.
  intros Hnamed. unfold docker.Pull. rewrite Hnamed.
  destruct (dockercli.NewClientWithOpts w) as [[c|err] w1]; [|done].
  cbv zeta. destruct (command.EncodeAuthToBase64 _) as [token err0].
  destruct (decide (token = EmptyString));
    destruct (dockercli.ImagePull _ _ _ _) as [[[stream|] err1] w2]; try done;
    destruct (dockercli.ReadAll stream w2) as [[data [err2|]] w3]; try done;
    by intros [= <- _].
Qed.

(** C9: when the daemon answers the pull request with an error, that
    error is not what [Pull] returns: with a nil stream the read panics,
    and with a stream the result is that of reading it. *)
Theorem Pull_drops_pull_error (client : docker.RegistryClient) repo named c w w1
    token closer e w2 :
  dockercli.NewClientWithOpts w = (Ok c, w1) →
  reference.ParseDockerRef repo = Ok named →
  token = tokenOf (match docker.auth client !! reference.Domain named with
                   | Some v => v | None => docker.zeroAuth end) →
  dockercli.ImagePull c repo {| dockertypes.RegistryAuth := token |} w1
    = ((closer, Some e), w2) →
  match closer with
  | None => docker.Pull client repo w = (Panicked, w2)
  | Some stream =>
      ∀ data err2 w3,
        dockercli.ReadAll stream w2 = ((data, err2), w3) →
        docker.Pull client repo w
        = (Returned (match err2 with
                     | Some err => (EmptyString, Some err)
                     | None => (reference.NamedString named, None)
                     end), w3)
  end.
Proof.
  intros Hc Hnamed -> Hpull.
  rewrite (Pull_request _ _ _ _ _ _ Hc Hnamed). cbv zeta. rewrite Hpull.
  destruct closer as [stream|]; [|done].
  intros data err2 w3 ->. by destruct err2.
Qed.

End daemon_claims.

(** ** Pulling through the runtime *)

Section runtime_claims.

Context {W : Type} {F : reference.API} {C : containerdlib.API W}.

(** C8: a [Pull] on the runtime backend that returns without an error
    returns the namespace, a slash and the digest of the target of the
    image the runtime pulled. *)
Theorem containerd_Pull_identifier (c : containerd.RegistryClient) repo id w w' :
  containerd.Pull c repo w = ((id, None), w') →
  ∃ image,
    containerdlib.Pull (containerd.client c)
      (match reference.ParseDockerRef repo with
       | Ok named => reference.NamedString named
       | Failed _ => repo
       end) w = (Ok image, w')
    ∧ id = "veinmind-runner" +:+ "/" +:+ containerdlib.TargetDigest image.
Proof.
  unfold containerd.Pull. cbv zeta.
  destruct (containerdlib.Pull _ _ w) as [[image|err] w1]; [|done].
  intros [= <- <-]. by exists image.
Qed.

End runtime_claims.

(** ** Construction of the client *)

Section construction.

Context {W : Type} {N : name.API} {U : url.API} {R : remote.API W N}.

Implicit Types (c : docker.RegistryClient) (d server address : string)
  (config : dockertypes.AuthConfig) (opts : list docker.Option).

Lemma NewRegistryClient_options (file : docker.ConfigFile) opts :
  docker.options (docker.NewRegistryClient file opts).1.1
  = [remote.WithTransport docker.defaultTransport].
Proof.
  unfold docker.NewRegistryClient.
  destruct (docker.applyOptions opts _) as [c1 l1].
  destruct file as [err|err|err|entries]; try done.
  by destruct (docker.loadAuthConfigs entries c1).
Qed.

Lemma applyOptions_WithAuth_log (overrides : list (string * docker.Auth)) c :
  (docker.applyOptions ((λ o, docker.WithAuth o.1 o.2) <$> overrides) c).2
  = omap overrideError overrides.
Proof.
  revert c. induction overrides as [|[address a] overrides IH]; intros c; simpl; [done|].
  unfold docker.WithAuth at 1, overrideError at 1. simpl.
  destruct (name.NewRegistry address) as [registry|err].
  - apply IH.
  - specialize (IH c). destruct (docker.applyOptions _ c) as [c' l]. simpl in *.
    by rewrite IH.
Qed.

Lemma NewRegistryClient_without_file_store (file : docker.ConfigFile)
    (overrides : list (string * docker.Auth)) err :
  fileError file = Some err →
  ∀ d, docker.auth (docker.NewRegistryClient file
                      ((λ o, docker.WithAuth o.1 o.2) <$> overrides)).1.1 !! d
       = lastWrite d (omap overrideWrite overrides).
Proof.
  intros Hfile d. unfold docker.NewRegistryClient.
  pose proof (applyOptions_WithAuth_auth overrides
                {| docker.auth := ∅; docker.options := [] |}) as Hauth.
  destruct (docker.applyOptions _ _) as [c1 l1]. simpl in Hauth.
  destruct file as [e|e|e|entries]; simpl in Hfile; try done; simpl;
    rewrite Hauth, applyWrites_lookup, lookup_empty; by destruct (lastWrite d _).
Qed.


(** X3: when the config file is missing, unreadable or not JSON, the
    store holds the explicit overrides alone, the last one for a domain
    winning, and the log holds the error of each rejected override, in
    order, followed by the error of the file. *)
Theorem NewRegistryClient_without_file (file : docker.ConfigFile)
    (overrides : list (string * docker.Auth)) err :
  fileError file = Some err →
  let r := docker.NewRegistryClient file ((λ o, docker.WithAuth o.1 o.2) <$> overrides) in
  (∀ d, docker.auth r.1.1 !! d = lastWrite d (omap overrideWrite overrides))
  ∧ r.2 = omap overrideError overrides ++ [log.Error err].
Proof.
  intros Hfile r. subst r. unfold docker.NewRegistryClient.
  pose proof (applyOptions_WithAuth_auth overrides
                {| docker.auth := ∅; docker.options := [] |}) as Hauth.
  pose proof (applyOptions_WithAuth_log overrides
                {| docker.auth := ∅; docker.options := [] |}) as Hlog.
  destruct (docker.applyOptions _ _) as [c1 l1]. simpl in Hauth, Hlog.
  assert (∀ d, docker.auth c1 !! d = lastWrite d (omap overrideWrite overrides)) as Hlookup.
  { intros d. rewrite Hauth, applyWrites_lookup, lookup_empty.
    by destruct (lastWrite d _). }
  destruct file as [e|e|e|entries]; simpl in Hfile; try done;
    injection Hfile as ->; simpl; by rewrite Hlog.
Qed.

Lemma applyOptions_WithAuth_skip (before after : list (string * docker.Auth))
    address (a : docker.Auth) c err :
  name.NewRegistry address = Failed err →
  (docker.applyOptions
     ((λ o, docker.WithAuth o.1 o.2) <$> (before ++ (address, a) :: after)) c).1
  = (docker.applyOptions ((λ o, docker.WithAuth o.1 o.2) <$> (before ++ after)) c).1.
Proof.
  intros Hbad. revert c.
  induction before as [|[address' a'] before IH]; intros c; simpl.
  - unfold docker.WithAuth at 1. simpl. rewrite Hbad.
    by destruct (docker.applyOptions _ c).
  - destruct (docker.WithAuth address' a' c) as [cNew|err']; [apply IH|].
    specialize (IH c).
    destruct (docker.applyOptions _ c) as [c1 l1].
    by destruct (docker.applyOptions _ c) as [c2 l2].
Qed.

(** X2: an explicit override whose address is not a registry is skipped
    and logged: whatever the config file, the client is the one built
    from the other overrides, and the log is the log of that
    construction with the error of the override put in after the errors
    of the overrides before it. *)
Theorem failing_override_skipped (file : docker.ConfigFile)
    (before after : list (string * docker.Auth)) address (a : docker.Auth) err :
  name.NewRegistry address = Failed err →
  let r1 := docker.NewRegistryClient file
              ((λ o, docker.WithAuth o.1 o.2) <$> (before ++ (address, a) :: after)) in
  let r2 := docker.NewRegistryClient file
              ((λ o, docker.WithAuth o.1 o.2) <$> (before ++ after)) in
  r1.1 = r2.1
  ∧ ∃ rest, r1.2 = omap overrideError before ++ log.Error err :: rest
            ∧ r2.2 = omap overrideError before ++ rest.
Proof.
  intros Hbad r1 r2. subst r1 r2. unfold docker.NewRegistryClient.
  set (c0 := {| docker.auth := ∅; docker.options := [] |}).
  pose proof (applyOptions_WithAuth_skip before after address a c0 err Hbad) as Hclient.
  pose proof (applyOptions_WithAuth_log (before ++ (address, a) :: after) c0) as Hlog1.
  pose proof (applyOptions_WithAuth_log (before ++ after) c0) as Hlog2.
  destruct (docker.applyOptions _ c0) as [c1 l1].
  destruct (docker.applyOptions _ c0) as [c2 l2].
  simpl in Hclient, Hlog1, Hlog2. subst c2 l1 l2.
  assert (overrideError (address, a) = Some (log.Error err)) as Herr
    by (unfold overrideError; simpl; by rewrite Hbad).
  rewrite !omap_app. simpl. rewrite Herr.
  destruct file as [e|e|e|entries]; simpl.
  1-3: split; [done|]; exists (omap overrideError after ++ [log.Error e]);
       by rewrite <- !(assoc_L (++)).
  destruct (docker.loadAuthConfigs entries c1) as [c3 l3].
  split; [done|]. exists (omap overrideError after ++ l3).
  by rewrite <- !(assoc_L (++)).
Qed.

(** X4: a config-file entry that asks for no write (its domain is not a
    registry, or its auth block is not the base64 of [user:password])
    does not disturb the loading of the entries around it. *)
Theorem rejected_entry_skipped (overrides : list (string * docker.Auth))
    (before after : list (string * dockertypes.AuthConfig)) bad :
  fileWrite bad = None →
  docker.auth (docker.NewRegistryClient (docker.Parsed (before ++ bad :: after))
                 ((λ o, docker.WithAuth o.1 o.2) <$> overrides)).1.1
  = docker.auth (docker.NewRegistryClient (docker.Parsed (before ++ after))
                   ((λ o, docker.WithAuth o.1 o.2) <$> overrides)).1.1.
Proof.
  intros Hbad. rewrite !NewRegistryClient_auth.
  rewrite !omap_app. simpl. by rewrite Hbad.
Qed.

(** X5: every key of the store of a new client is the [String()] of a
    registry that [name.NewRegistry] accepted. *)
Theorem store_keys_are_registries (overrides : list (string * docker.Auth))
    (entries : list (string * dockertypes.AuthConfig)) d v :
  docker.auth (docker.NewRegistryClient (docker.Parsed entries)
                 ((λ o, docker.WithAuth o.1 o.2) <$> overrides)).1.1 !! d = Some v →
  ∃ registryName registry,
    name.NewRegistry registryName = Ok registry
    ∧ d = name.RegistryString registry.
Proof.
  rewrite NewRegistryClient_auth, applyWrites_lookup, lookup_empty.
  destruct (lastWrite d _) as [a|] eqn:Hlast; [|done]. intros _.
  apply lastWrite_elem, elem_of_app in Hlast as [Hin|Hin];
    apply list_elem_of_omap in Hin as ([x y] & _ & Hw).
  - unfold overrideWrite in Hw. simpl in Hw.
    destruct (name.NewRegistry x) as [registry|] eqn:Hreg; [|done].
    injection Hw as <- _. by exists x, registry.
  - unfold fileWrite, canonicalDomain in Hw. simpl in Hw.
    destruct (name.NewRegistry _) as [registry|] eqn:Hreg; [|done].
    destruct (credentialOf _); [|done].
    injection Hw as <- _. by eexists _, registry.
Qed.

Lemma cutColon_parts s :
  Strings.Count s ":" = 1 →
  s = (cutColon s).1 +:+ ":" +:+ (cutColon s).2
  ∧ Strings.Count (cutColon s).1 ":" = 0
  ∧ Strings.Count (cutColon s).2 ":" = 0.
Proof.
  induction s as [|ch s IH]; simpl; [done|].
  destruct (decide (ch = ":"%char)) as [->|Hne]; simpl.
  - intros H. split_and!; [done|done|lia].
  - intros H. destruct (IH H) as (Hs & Hu & Hp).
    destruct (cutColon s) as [u p]. simpl in *.
    rewrite decide_False by done. split_and!; [|done|done].
    change (String ch s = String ch (u +:+ ":" +:+ p)). by rewrite <- Hs.
Qed.

(** X6: every credential in the store of a new client was either given
    by an explicit override or is the two parts of the decoding of a
    non-empty auth block of the config file, neither part holding a
    [':']; in particular a password with a [':'] never comes from the
    file. *)
Theorem store_values_provenance (overrides : list (string * docker.Auth))
    (entries : list (string * dockertypes.AuthConfig)) d v :
  docker.auth (docker.NewRegistryClient (docker.Parsed entries)
                 ((λ o, docker.WithAuth o.1 o.2) <$> overrides)).1.1 !! d = Some v →
  (∃ address, (address, v) ∈ overrides)
  ∨ (∃ server config,
       (server, config) ∈ entries
       ∧ dockertypes.Auth config ≠ EmptyString
       ∧ base64.DecodeString base64.StdEncoding (dockertypes.Auth config)
         = Some (docker.Username v +:+ ":" +:+ docker.Password v)
       ∧ Strings.Count (docker.Username v) ":" = 0
       ∧ Strings.Count (docker.Password v) ":" = 0).
Proof.
  rewrite NewRegistryClient_auth, applyWrites_lookup, lookup_empty.
  destruct (lastWrite d _) as [a|] eqn:Hlast; [|done]. intros [= ->].
  apply lastWrite_elem, elem_of_app in Hlast as [Hin|Hin];
    apply list_elem_of_omap in Hin as ([x y] & Hxy & Hw).
  - left. unfold overrideWrite in Hw. simpl in Hw.
    destruct (name.NewRegistry x); [|done]. injection Hw as _ ->. by exists x.
  - right. exists x, y. unfold fileWrite in Hw. simpl in Hw.
    destruct (canonicalDomain x); [|done].
    destruct (credentialOf (dockertypes.Auth y)) as [a|] eqn:Hcred; [|done].
    injection Hw as _ ->. split; [done|]. split.
    { intros Hempty. by rewrite Hempty, credentialOf_empty in Hcred. }
    unfold credentialOf in Hcred.
    destruct (base64.DecodeString _ _) as [decoded|]; [|done].
    case_decide as Hcount; [|done].
    destruct (cutColon_parts decoded Hcount) as (Hs & Hu & Hp).
    destruct (cutColon decoded) as [u p]. injection Hcred as <-. simpl in *.
    by rewrite <- Hs.
Qed.

(** X7: a successful [WithAuth] sets the credential of one key, the
    [String()] of the registry of its address, and leaves the other keys
    and the request options as they were. *)
Theorem WithAuth_sets_one_key address (a : docker.Auth) c registry :
  name.NewRegistry address = Ok registry →
  ∃ c', docker.WithAuth address a c = Ok c'
        ∧ docker.auth c' !! name.RegistryString registry = Some a
        ∧ (∀ d, d ≠ name.RegistryString registry → docker.auth c' !! d = docker.auth c !! d)
        ∧ docker.options c' = docker.options c.
Proof.
  intros Hreg. unfold docker.WithAuth. rewrite Hreg. eexists. split; [done|]. simpl.
  split_and!; [by rewrite lookup_insert_eq| |done].
  intros d Hd. by rewrite lookup_insert_ne.
Qed.

(** X18: a config-file entry leaves at most one diagnostic, and none
    exactly when it is written to the store or when its domain is a
    registry and its auth block is empty: an empty auth block is passed
    over in silence, every other rejection is reported. *)
Theorem entry_diagnostics c server config :
  (length (docker.loadAuthConfig c server config).2 ≤ 1)%nat
  ∧ ((docker.loadAuthConfig c server config).2 = []
     ↔ is_Some (fileWrite (server, config))
       ∨ (is_Some (canonicalDomain server) ∧ dockertypes.Auth config = EmptyString)).
Proof.
  unfold docker.loadAuthConfig, fileWrite, canonicalDomain, credentialOf. simpl.
  destruct (name.NewRegistry _) as [registry|err]; simpl.
  - destruct (decide (dockertypes.Auth config ≠ EmptyString)) as [Hne|Heq].
    + destruct (base64.DecodeString _ _) as [decoded|]; simpl.
      * rewrite Split_length.
        destruct (decide (Strings.Count decoded ":" = 1)) as [H1|H1].
        -- rewrite decide_True by lia. simpl. split; [lia|].
           split; [|done]. intros _. left. destruct (cutColon decoded). by eexists.
        -- rewrite decide_False by lia. simpl. split; [lia|].
           split; [done|]. intros [[? [=]]|[_ ?]]; done.
      * split; [lia|]. split; [done|]. intros [[? [=]]|[_ ?]]; done.
    + apply dec_stable in Heq. simpl. split; [lia|]. split; [|done].
      intros _. right. split; [by eexists|done].
  - split; [lia|]. split; [done|]. intros [[? [=]]|[[? [=]] _]].
Qed.

End construction.

(** ** More on listing the catalog *)

Section catalog_more.

Context {W : Type} {N : name.API} {U : url.API} {R : remote.API W N}.

Implicit Types (rs page repos : list string) (last address : string) (w : W).

Lemma fetched_snoc regsitry options last w repos last' w1 page w2 :
  fetched regsitry options last w repos last' w1 →
  remote.CatalogPage regsitry last' 10000 options w1 = ((page, None), w2) →
  page ≠ [] →
  fetched regsitry options last w (repos ++ page) (List.last page EmptyString) w2.
Proof.
  intros Hrun Hpage Hne.
  induction Hrun as [last w|last w page0 w0 repos last' w1 Hpage0 Hne0 Hrun IH].
  - replace ([] ++ page) with (page ++ []) by (by rewrite app_nil_r).
    eapply fetched_page; [done..|]. constructor.
  - rewrite <- (assoc_L (++)). eapply fetched_page; [done..|]. by apply IH.
Qed.

Lemma catalogLoop_sound regsitry options fuel :
  ∀ first w0 acc last w repos err w',
    fetched regsitry options first w0 acc last w →
    docker.catalogLoop fuel regsitry options last acc w = Some ((repos, err), w') →
    ∃ last' w1 junk,
      fetched regsitry options first w0 repos last' w1
      ∧ remote.CatalogPage regsitry last' 10000 options w1 = ((junk, err), w')
      ∧ (err = None → junk = []).
Proof.
  induction fuel as [|fuel IH]; intros first w0 acc last w repos err w' Hrun Hloop; [done|].
  cbn [docker.catalogLoop] in Hloop.
  destruct (remote.CatalogPage regsitry last 10000 options w) as [[page [e|]] w1] eqn:Hpage.
  - injection Hloop as <- <- <-. by exists last, w, page.
  - destruct (decide (0 < length page)) as [Hlen|Hlen].
    + apply (IH first w0 _ _ _ _ _ _ (fetched_snoc _ _ _ _ _ _ _ _ _ Hrun Hpage
                                        ltac:(by intros ->; simpl in Hlen; lia)) Hloop).
    + injection Hloop as <- <- <-. exists last, w, page. split_and!; [done..|].
      intros _. destruct page; [done|simpl in Hlen; lia].
Qed.

(** X8: whatever the registry does, a result of [GetRepos] is either
    the error of an address that is not a registry, with no names and
    no request made, or the names of a run of non-empty pages, in the
    order received, ended by a request that failed (its error is
    returned) or that gave an empty page (no error is returned). *)
Theorem GetRepos_sound fuel (client : docker.RegistryClient) address options0 w
    repos err w' :
  docker.GetRepos fuel client address options0 w = Some ((repos, err), w') →
  (∃ e, name.NewRegistry address = Failed e ∧ repos = [] ∧ err = Some e ∧ w' = w)
  ∨ (∃ regsitry last w1 junk,
       name.NewRegistry address = Ok regsitry
       ∧ fetched regsitry (requestOptions client address options0) EmptyString w
           repos last w1
       ∧ remote.CatalogPage regsitry last 10000
           (requestOptions client address options0) w1 = ((junk, err), w')
       ∧ (err = None → junk = [])).
Proof.
  rewrite GetRepos_catalogLoop.
  destruct (name.NewRegistry address) as [regsitry|e].
  - intros Hloop. right.
    destruct (catalogLoop_sound _ _ _ _ _ _ _ _ _ _ _ (fetched_none _ _ _ _) Hloop)
      as (last & w1 & junk & ?). by exists regsitry, last, w1, junk.
  - intros [= <- <- <-]. left. by exists e.
Qed.

Lemma catalogLoop_never_leaves regsitry options (I : string → W → Prop) :
  (∀ last w, I last w →
     ∃ page w', remote.CatalogPage regsitry last 10000 options w = ((page, None), w')
                ∧ page ≠ [] ∧ I (List.last page EmptyString) w') →
  ∀ fuel last repos w, I last w → docker.catalogLoop fuel regsitry options last repos w = None.
Proof.
  intros Hstep. induction fuel as [|fuel IH]; intros last repos w HI; [done|].
  destruct (Hstep last w HI) as (page & w' & Hpage & Hne & HI').
  rewrite (catalogLoop_page _ _ _ _ _ _ _ _ Hpage Hne). by apply IH.
Qed.

(** X9: against a registry that answers every request the loop comes to
    make with a non-empty page and no error, the loop of [GetRepos]
    never leaves: no number of turns gives a result. *)
Theorem GetRepos_never_leaves (client : docker.RegistryClient) address options0
    regsitry (I : string → W → Prop) w fuel :
  name.NewRegistry address = Ok regsitry →
  I EmptyString w →
  (∀ last w, I last w →
     ∃ page w',
       remote.CatalogPage regsitry last 10000 (requestOptions client address options0) w
       = ((page, None), w')
       ∧ page ≠ [] ∧ I (List.last page EmptyString) w') →
  docker.GetRepos fuel client address options0 w = None.
Proof.
  intros Hreg HI Hstep. rewrite GetRepos_catalogLoop, Hreg.
  by apply (catalogLoop_never_leaves _ _ I Hstep).
Qed.

(** X10: [GetRepos] looks the credential up under the address as it was
    given, while [WithAuth] files it under the [String()] of the
    registry of the address.  A client built from the single override
    [(address, a)], without a config file, sends [a] with its catalog
    requests for [address] exactly when the two strings agree and [a]
    has a non-empty username and password; otherwise it sends the
    default transport alone. *)
Theorem GetRepos_uses_override (file : docker.ConfigFile) err address (a : docker.Auth)
    regsitry fuel options0 w :
  fileError file = Some err →
  name.NewRegistry address = Ok regsitry →
  let client := (docker.NewRegistryClient file [docker.WithAuth address a]).1.1 in
  let transport := remote.WithTransport docker.defaultTransport in
  let basic := remote.WithAuth {| authn.Username := docker.Username a;
                                  authn.Password := docker.Password a |} in
  docker.auth client !! name.RegistryString regsitry = Some a
  ∧ docker.GetRepos fuel client address options0 w
    = docker.catalogLoop fuel regsitry
        (if decide (name.RegistryString regsitry = address
                    ∧ docker.Username a ≠ EmptyString ∧ docker.Password a ≠ EmptyString)
         then options0 ++ [transport; basic]
         else options0 ++ [transport])
        EmptyString [] w.
Proof.
  intros Hfile Hreg client transport basic.
  pose proof (NewRegistryClient_without_file_store file [(address, a)] err Hfile) as Hstore.
  pose proof (NewRegistryClient_options file [docker.WithAuth address a]) as Hopts.
  fold client in Hopts. simpl in Hstore. fold client in Hstore.
  assert (∀ d, docker.auth client !! d
               = if decide (name.RegistryString regsitry = d) then Some a else None) as Hlookup.
  { intros d. rewrite Hstore. unfold overrideWrite. simpl. rewrite Hreg. simpl. done. }
  split; [by rewrite Hlookup, decide_True|].
  rewrite GetRepos_catalogLoop, Hreg. f_equal.
  unfold requestOptions. rewrite Hlookup, Hopts.
  destruct (decide (name.RegistryString regsitry = address)) as [Heq|Hne].
  - destruct (decide (docker.Username a = EmptyString ∨ docker.Password a = EmptyString))
      as [Hor|Hnor].
    + rewrite decide_False; [done|]. intros (_ & ? & ?). by destruct Hor.
    + rewrite decide_True; [done|]. split_and!; [done|..]; intros ?; apply Hnor; auto.
  - rewrite decide_False; [done|]. by intros [? _].
Qed.

End catalog_more.

(** ** More on requests, the daemon and the runtime *)

Section backends_more.

Context {W : Type} {N : name.API} {F : reference.API} {R : remote.API W N}
        {D : dockercli.API W} {J : json.API} {C : containerdlib.API W}.

(** X11: a reference that [ParseDockerRef] rejects makes [GetRepo] and
    [GetRepoTags] return the parse error, with no descriptor or tag and
    without a request to the registry, and makes [Pull] return an error
    with an empty identifier, the daemon having been connected to but
    not asked to pull. *)
Theorem invalid_reference_fails_fast (client : docker.RegistryClient) repo e options0 w :
  reference.ParseDockerRef repo = Failed e →
  docker.GetRepo client repo options0 w = ((None, Some e), w)
  ∧ docker.GetRepoTags client repo options0 w = (([], Some e), w)
  ∧ ∃ e', docker.Pull client repo w
          = (Returned (EmptyString, Some e'), (dockercli.NewClientWithOpts w).2)
          ∧ (e' = e ∨ (dockercli.NewClientWithOpts w).1 = Failed e').
Proof.
  intros Hparse. unfold docker.GetRepo, docker.GetRepoTags, docker.Pull.
  rewrite Hparse. split_and!; [done..|].
  destruct (dockercli.NewClientWithOpts w) as [[c|err] w1]; eexists; (split; [done|]);
    [by left | by right].
Qed.

(** X12: when [Pull] returns an error, the identifier is empty and the
    error is that of connecting to the daemon, of parsing the reference,
    or of reading the stream of the pull; the error of the pull request
    is not among them. *)
Theorem Pull_error_sources (client : docker.RegistryClient) repo id e w w' :
  docker.Pull client repo w = (Returned (id, Some e), w') →
  id = EmptyString
  ∧ (dockercli.NewClientWithOpts w = (Failed e, w')
     ∨ (∃ c, dockercli.NewClientWithOpts w = (Ok c, w')
             ∧ reference.ParseDockerRef repo = Failed e)
     ∨ (∃ c w1 named token stream perr w2 data,
          dockercli.NewClientWithOpts w = (Ok c, w1)
          ∧ reference.ParseDockerRef repo = Ok named
          ∧ dockercli.ImagePull c repo {| dockertypes.RegistryAuth := token |} w1
            = ((Some stream, perr), w2)
          ∧ dockercli.ReadAll stream w2 = ((data, Some e), w'))).
Proof.
  destruct (dockercli.NewClientWithOpts w) as [[c|err] w1] eqn:Hc.
  - destruct (reference.ParseDockerRef repo) as [named|err] eqn:Hnamed.
    + rewrite (Pull_request _ _ _ _ _ _ Hc Hnamed). cbv zeta.
      destruct (dockercli.ImagePull _ _ _ _) as [[[stream|] perr] w2] eqn:Hpull; [|done].
      destruct (dockercli.ReadAll stream w2) as [[data [err2|]] w3] eqn:Hread; [|done].
      intros [= <- <- <-]. split; [done|]. right. right.
      by eexists c, w1, named, _, stream, perr, w2, data.
    + unfold docker.Pull. rewrite Hc, Hnamed. intros [= <- <- <-].
      split; [done|]. right. left. by exists c.
  - unfold docker.Pull. rewrite Hc. intros [= <- <- <-]. split; [done|]. by left.
Qed.

(** X13: with the daemon reachable and the reference parsed, the pull
    request carries the token of the credential stored for the domain of
    the reference (of the empty credential when there is none), which is
    never the empty string; if the daemon hands back a stream that reads
    to its end, [Pull] returns the canonical reference and no error,
    whatever error came with the stream. *)
Theorem Pull_succeeds (client : docker.RegistryClient) repo named c w w1
    stream perr w2 data w3 :
  dockercli.NewClientWithOpts w = (Ok c, w1) →
  reference.ParseDockerRef repo = Ok named →
  let token := tokenOf (match docker.auth client !! reference.Domain named with
                        | Some v => v | None => docker.zeroAuth end) in
  dockercli.ImagePull c repo {| dockertypes.RegistryAuth := token |} w1
    = ((Some stream, perr), w2) →
  dockercli.ReadAll stream w2 = ((data, None), w3) →
  token ≠ EmptyString
  ∧ docker.Pull client repo w = (Returned (reference.NamedString named, None), w3).
Proof.
  intros Hc Hnamed token Hpull Hread. split; [apply tokenOf_nonempty|].
  rewrite (Pull_request _ _ _ _ _ _ Hc Hnamed). cbv zeta. fold token.
  by rewrite Hpull, Hread.
Qed.

(** X14: the identifier a successful [Pull] returns is what [Remove],
    given that identifier, asks the daemon to remove, forced and with
    its children pruned. *)
Theorem Pull_then_Remove (client : docker.RegistryClient) repo named id w w1 c w2 :
  reference.ParseDockerRef repo = Ok named →
  docker.Pull client repo w = (Returned (id, None), w1) →
  dockercli.NewClientWithOpts w1 = (Ok c, w2) →
  docker.Remove client id w1
  = dockercli.ImageRemove c (reference.NamedString named)
      {| dockertypes.Force := true; dockertypes.PruneChildren := true |} w2.
Proof.
  intros Hnamed Hpull Hc.
  assert (id = reference.NamedString named) as ->.
  { destruct (dockercli.NewClientWithOpts w) as [[c0|err] w0] eqn:Hc0.
    - rewrite (Pull_request _ _ _ _ _ _ Hc0 Hnamed) in Hpull. cbv zeta in Hpull.
      destruct (dockercli.ImagePull _ _ _ _) as [[[stream|] perr] w3]; [|done].
      destruct (dockercli.ReadAll stream w3) as [[data [err2|]] w4]; [done|].
      by injection Hpull as <- _.
    - unfold docker.Pull in Hpull. by rewrite Hc0 in Hpull. }
  unfold docker.Remove. by rewrite Hc.
Qed.

End backends_more.

(** ** The imported string and base64 functions *)

(** X16: splitting a string at a separator and joining the pieces with
    the same separator gives the string back; there is one piece more
    than there are separators. *)
Theorem Join_Split s sep :
  Strings.Join (Strings.Split s sep) (String sep EmptyString) = s
  ∧ length (Strings.Split s sep) = S (Strings.Count s sep).
Proof.
  split; [|apply Split_length].
  induction s as [|ch s IH]; simpl; [done|].
  destruct (decide (ch = sep)) as [->|Hne].
  - simpl. destruct (Strings.Split s sep) eqn:Hsplit.
    + pose proof (Split_length s sep) as Hlen. rewrite Hsplit in Hlen. done.
    + by rewrite IH.
  - destruct (Strings.Split s sep) as [|piece [|piece' pieces]] eqn:Hsplit.
    + pose proof (Split_length s sep) as Hlen. rewrite Hsplit in Hlen. done.
    + simpl in *. by rewrite IH.
    + cbn [Strings.Join] in *. rewrite <- IH. done.
Qed.

Section base64_alphabet.

Variable alphabet : string.
Hypothesis decode_encode :
  ∀ x, base64.decodeChar alphabet (base64.encodeChar alphabet x) = Some x.
Hypothesis encode_not_newline :
  ∀ x, base64.isNewline (base64.encodeChar alphabet x) = false.
Hypothesis padding_outside : base64.decodeChar alphabet base64.StdPadding = None.

Lemma DecodeString_EncodeToString_alphabet s :
  base64.DecodeString alphabet (base64.EncodeToString alphabet s) = Some s.
Proof using decode_encode encode_not_newline padding_outside.
  unfold base64.DecodeString.
  assert (base64.stripNewlines (base64.EncodeToString alphabet s)
          = base64.EncodeToString alphabet s) as ->.
  { induction s as [|a|a b|a b c s IH] using string_ind3; [done|..].
    - destruct a. cbn [base64.EncodeToString base64.split3 base64.zero base64.stripNewlines].
      by rewrite !encode_not_newline.
    - destruct a, b.
      cbn [base64.EncodeToString base64.split3 base64.zero base64.stripNewlines].
      by rewrite !encode_not_newline.
    - destruct a, b, c. cbn [base64.EncodeToString base64.split3 base64.stripNewlines].
      rewrite !encode_not_newline. by rewrite IH. }
  induction s as [|a|a b|a b c s IH] using string_ind3; [done|..].
  - destruct a. cbn [base64.EncodeToString base64.split3 base64.zero base64.decodeQuanta].
    by rewrite !decode_encode, !padding_outside.
  - destruct a, b. cbn [base64.EncodeToString base64.split3 base64.zero base64.decodeQuanta].
    by rewrite !decode_encode, !padding_outside.
  - destruct a, b, c. cbn [base64.EncodeToString base64.split3 base64.decodeQuanta].
    rewrite !decode_encode. by rewrite IH.
Qed.

End base64_alphabet.

Lemma decodeChar_encodeChar_URL x :
  base64.decodeChar base64.URLEncoding (base64.encodeChar base64.URLEncoding x) = Some x.
Proof. destruct x as [[] [] [] [] [] []]; vm_compute; reflexivity. Qed.

Lemma encodeChar_not_newline_URL x :
  base64.isNewline (base64.encodeChar base64.URLEncoding x) = false.
Proof. destruct x as [[] [] [] [] [] []]; vm_compute; reflexivity. Qed.

Lemma append_assoc (s t u : string) : (s +:+ t) +:+ u = s +:+ t +:+ u.
Proof.
  induction s as [|ch s IH]; [done|].
  change (String ch ((s +:+ t) +:+ u) = String ch (s +:+ t +:+ u)). by rewrite IH.
Qed.

(** X17: the token [Pull] sends decodes, as URL-safe base64, to the JSON
    object of the credential; for a credential with a username and a
    password the object has these two members and no other. *)
Theorem token_decodes {J : json.API} (a : docker.Auth) :
  base64.DecodeString base64.URLEncoding (tokenOf a)
  = Some (command.marshalAuthConfig (authConfigOf a))
  ∧ (docker.Username a ≠ EmptyString → docker.Password a ≠ EmptyString →
     command.marshalAuthConfig (authConfigOf a)
     = "{" +:+ String command.dquote "username" +:+ String command.dquote ":"
           +:+ json.quote (docker.Username a)
       +:+ "," +:+ String command.dquote "password" +:+ String command.dquote ":"
           +:+ json.quote (docker.Password a)
       +:+ "}").
Proof.
  split.
  - unfold tokenOf, command.EncodeAuthToBase64. cbn [fst].
    apply DecodeString_EncodeToString_alphabet;
      [apply decodeChar_encodeChar_URL | apply encodeChar_not_newline_URL | reflexivity].
  - intros Hu Hp. unfold command.marshalAuthConfig, command.member, authConfigOf.
    cbn [dockertypes.Username dockertypes.Password dockertypes.Auth dockertypes.Email
         dockertypes.ServerAddress dockertypes.IdentityToken dockertypes.RegistryToken].
    rewrite (decide_False (P := docker.Username a = EmptyString)) by done.
    rewrite (decide_False (P := docker.Password a = EmptyString)) by done.
    rewrite !(decide_True (P := EmptyString = EmptyString)) by done.
    cbn [app Strings.Join]. by rewrite !append_assoc.
Qed.

(** ** Examples *)

Example base64_user_pass :
  base64.EncodeToString base64.StdEncoding "user:pass" = "dXNlcjpwYXNz"
  ∧ base64.DecodeString base64.StdEncoding "dXNlcjpwYXNz" = Some "user:pass".
Proof. split; reflexivity. Qed.

Example base64_padding :
  base64.EncodeToString base64.StdEncoding "a:b:" = "YTpiOg=="
  ∧ base64.DecodeString base64.StdEncoding "YTpiOg==" = Some "a:b:"
  ∧ base64.EncodeToString base64.StdEncoding "u:" = "dTo="
  ∧ base64.DecodeString base64.StdEncoding "dTo" = None
  ∧ base64.EncodeToString base64.URLEncoding "{}" = "e30=".
Proof. repeat split; reflexivity. Qed.

Example Split_colons :
  Strings.Split "user:pass" ":" = ["user"; "pass"]
  ∧ Strings.Split "a:b:c" ":" = ["a"; "b"; "c"]
  ∧ Strings.Split "nocolon" ":" = ["nocolon"]
  ∧ Strings.Split "" ":" = [""].
Proof. repeat split; reflexivity. Qed.

(** The stand-in registry serves its repositories. *)
Lemma standin_servesCatalog (sc : standin.Registry) regsitry options :
  standin.failsAfter sc = None →
  0 < standin.pageSize sc →
  servesCatalog (R := standin.registry sc) regsitry options (standin.repositories sc).
Proof.
  intros Hfail Hsize last w _.
  eexists _, _. split_and!.
  - cbn [remote.CatalogPage standin.registry]. unfold standin.failing. rewrite Hfail.
    reflexivity.
  - apply prefix_take.
  - intros Hrem Htake. apply Hrem.
    destruct (remaining last (standin.repositories sc)) as [|r rem]; [done|].
    destruct (Z.to_nat 10000 `min` standin.pageSize sc) eqn:Hmin; [lia|done].
Qed.

(** The lexical order of strings, as far as the listing needs it. *)
Lemma ltb_irrefl (s : string) : String.ltb s s = false.
Proof.
  unfold String.ltb. pose proof (String.compare_antisym s s) as H.
  by destruct (String.compare s s).
Qed.

Lemma ltb_asym (s t : string) : String.ltb s t = true → String.ltb t s = false.
Proof.
  unfold String.ltb. rewrite (String.compare_antisym t s).
  by destruct (String.compare s t).
Qed.

Lemma filter_forallb {A} (f : A → bool) (l : list A) :
  forallb f l = true → List.filter f l = l.
Proof.
  induction l as [|x l IH]; simpl; [done|].
  intros [Hx Hl]%andb_prop. rewrite Hx. by rewrite IH.
Qed.

(** In an ascending list the names lexically after one of its names are
    the names listed after it. *)
Lemma filter_ltb_after (rs : list string) (last : string) :
  lexical.ascending rs = true → last ∈ rs →
  List.filter (String.ltb last) rs = after last rs.
Proof.
  induction rs as [|r rs IH]; simpl; [by intros _ ?%elem_of_nil|].
  intros [Hr Hrs]%andb_prop Hin. destruct (decide (r = last)) as [->|Hne].
  - rewrite ltb_irrefl. by apply filter_forallb.
  - apply elem_of_cons in Hin as [->|Hin]; [done|].
    assert (String.ltb r last = true) as Hlt.
    { rewrite forallb_forall in Hr. apply Hr. by apply list_elem_of_In. }
    rewrite (ltb_asym _ _ Hlt). by apply IH.
Qed.

Lemma filter_ltb_empty (rs : list string) :
  EmptyString ∉ rs → List.filter (String.ltb EmptyString) rs = rs.
Proof.
  intros Hempty. apply filter_forallb, forallb_forall. intros r Hr%list_elem_of_In.
  destruct r; [done|reflexivity].
Qed.

(** The registry with the lexical cursor serves its repositories when
    they are listed in ascending order. *)
Lemma lexical_servesCatalog (sc : standin.Registry) regsitry options :
  lexical.ascending (standin.repositories sc) = true →
  EmptyString ∉ standin.repositories sc →
  0 < standin.pageSize sc →
  servesCatalog (R := lexical.registry sc) regsitry options (standin.repositories sc).
Proof.
  intros Hasc Hempty Hsize last w Hcursor.
  assert (List.filter (String.ltb last) (standin.repositories sc)
          = remaining last (standin.repositories sc)) as Hpage.
  { unfold remaining. destruct Hcursor as [->|Hin].
    - rewrite decide_True by done. by apply filter_ltb_empty.
    - rewrite decide_False by (by intros ->). by apply filter_ltb_after. }
  eexists _, _. split_and!.
  - cbn [remote.CatalogPage lexical.registry]. reflexivity.
  - rewrite Hpage. apply prefix_take.
  - rewrite Hpage. intros Hrem Htake. apply Hrem.
    destruct (remaining last (standin.repositories sc)) as [|r rem]; [done|].
    destruct (Z.to_nat 10000 `min` standin.pageSize sc) eqn:Hmin; [lia|done].
Qed.

(** A cursor that is no name of the registry is answered by the names
    after it all the same. *)
Example lexical_cursor_between_names :
  remote.CatalogPage (API := lexical.registry example.threeRepos)
    "registry.example.com" "b" 10000 [] []
  = ((["busybox"; "nginx"], None),
     [standin.CatalogRequest "registry.example.com" "b" 10000 []]).
Proof. vm_compute. reflexivity. Qed.

(** Closed decidable facts, by evaluation. *)
Ltac by_decide := apply (bool_decide_unpack _); vm_compute; exact I.

#[local] Existing Instances standin.names standin.urls standin.references standin.jsons
  standin.runtime.

(** A registry of three repositories with the lexical cursor of the
    registry API, handing out pages of two, is listed in full. *)
Lemma GetRepos_complete_witness :
  ∃ w', docker.GetRepos (R := lexical.registry example.threeRepos) 4
          (lexical.client example.threeRepos) "registry.example.com" [] []
        = Some ((["alpine"; "busybox"; "nginx"], None), w').
Proof.
  apply (GetRepos_complete (R := lexical.registry example.threeRepos) 4
           (lexical.client example.threeRepos)
           "registry.example.com" [] "registry.example.com"
           ["alpine"; "busybox"; "nginx"] []).
  - by_decide.
  - by_decide.
  - reflexivity.
  - apply (lexical_servesCatalog example.threeRepos); [reflexivity | by_decide | simpl; lia].
  - simpl. lia.
Defined.

(** The registry that hands out its list by position is listed in full
    as well. *)
Example GetRepos_by_position :
  servesCatalog (R := standin.registry example.threeRepos) "registry.example.com"
    (requestOptions (example.newClient example.threeRepos (docker.Parsed example.auths) [])
       "registry.example.com" [])
    ["alpine"; "busybox"; "nginx"]
  ∧ ∃ w', docker.GetRepos (R := standin.registry example.threeRepos) 4
            (example.newClient example.threeRepos (docker.Parsed example.auths) [])
            "registry.example.com" [] []
          = Some ((["alpine"; "busybox"; "nginx"], None), w').
Proof.
  split.
  - apply (standin_servesCatalog example.threeRepos); [reflexivity | simpl; lia].
  - eexists. vm_compute. reflexivity.
Qed.

(** An override and a config-file entry for [registry.example.com]. *)
Lemma credential_store_last_writer_wins_witness :
  let store :=
    docker.auth (example.newClient example.threeRepos (docker.Parsed example.auths)
                   [("registry.example.com", example.admin)]) in
  (∀ d', (length (entriesFor d' store) ≤ 1)%nat
         ∧ store !! d'
           = lastWrite d' (omap overrideWrite [("registry.example.com", example.admin)]
                           ++ omap fileWrite example.auths))
  ∧ ∃ kept,
      entriesFor "registry.example.com" store = [("registry.example.com", kept)]
      ∧ lastWrite "registry.example.com"
          (omap overrideWrite [("registry.example.com", example.admin)]
           ++ omap fileWrite example.auths) = Some kept
      ∧ ("registry.example.com", kept) ∈ omap fileWrite example.auths.
Proof.
  apply (credential_store_last_writer_wins (U := standin.urls)
           (R := standin.registry example.threeRepos)
           [("registry.example.com", example.admin)] example.auths
           "registry.example.com" example.admin example.userPass).
  - vm_compute. left.
  - vm_compute. left.
Defined.

Example credential_store_file_wins :
  docker.auth (example.newClient example.threeRepos (docker.Parsed example.auths)
                 [("registry.example.com", example.admin)])
    !! "registry.example.com" = Some example.userPass.
Proof. vm_compute. reflexivity. Qed.

(** [dXNlcjpwYXNz] is loaded as [{user, pass}]; [YTpiOmM=], which is
    [a:b:c], is not loaded. *)
Lemma auth_block_round_trip_witness :
  let c := example.newClient example.threeRepos example.noFile [] in
  docker.loadAuthConfig c "https://registry.example.com/v1/" (authBlock "dXNlcjpwYXNz")
  = ({| docker.auth := <["registry.example.com" := example.userPass]> (docker.auth c);
        docker.options := docker.options c |}, [])
  ∧ (docker.loadAuthConfig c "127.0.0.1:5000" (authBlock "YTpiOmM=")).1 = c.
Proof.
  intros c.
  destruct (auth_block_round_trip (U := standin.urls) c "https://registry.example.com/v1/"
              "registry.example.com" "user" "pass" "a:b:c"
              eq_refl eq_refl eq_refl ltac:(by_decide)) as [Hpair Hreject].
  split.
  - apply Hpair. reflexivity.
  - apply Hreject. reflexivity.
Defined.

(** An empty auth block for the domain of an override leaves the
    override in place. *)
Lemma empty_auth_block_never_written_witness :
  let c := example.newClient example.threeRepos example.noFile
             [("registry.example.com", example.admin)] in
  (docker.loadAuthConfig c "https://registry.example.com/v1/" (authBlock "")).1 = c
  ∧ docker.auth
      (example.newClient example.threeRepos
         (docker.Parsed [("https://registry.example.com/v1/", authBlock "")])
         [("registry.example.com", example.admin)])
      !! "registry.example.com" = Some example.admin.
Proof.
  intros c.
  destruct (empty_auth_block_never_written (U := standin.urls)
              (R := standin.registry example.threeRepos))
    as (Hskip & _ & Hkeeps).
  split.
  - apply Hskip. reflexivity.
  - unfold example.newClient. rewrite Hkeeps; [reflexivity|].
    intros server config [[= -> ->]|Hin%elem_of_nil]%elem_of_cons; done.
Defined.

(** The registry answers the first request with two names and fails the
    second. *)
Lemma GetRepos_partial_on_error_witness :
  ∃ w2, docker.GetRepos (R := standin.registry example.flaky) 3
          (example.newClient example.flaky example.noFile [])
          "registry.example.com" [] []
        = Some ((["alpine"; "busybox"], Some (Err "connection reset by peer")), w2).
Proof.
  eexists.
  eapply (GetRepos_partial_on_error (R := standin.registry example.flaky) 3
            (example.newClient example.flaky example.noFile [])
            "registry.example.com" [] "registry.example.com" []
            ["alpine"; "busybox"] "busybox").
  - reflexivity.
  - change ["alpine"; "busybox"] with (["alpine"; "busybox"] ++ @nil string).
    eapply fetched_page; [reflexivity | discriminate | apply fetched_none].
  - reflexivity.
  - simpl. lia.
Defined.

(** C6, as stated, fails: the config file gives the store an entry for
    the domain of the reference, with an empty password, and the request
    of [GetRepo] carries no basic authentication. *)
Lemma GetRepo_ignores_credential_without_password :
  let client := example.newClient example.threeRepos
                  (docker.Parsed example.authsNoPassword) [] in
  let v := {| docker.Username := "user"; docker.Password := "" |} in
  reference.ParseDockerRef "registry.example.com/app" = Ok ("registry.example.com", "app")
  ∧ docker.auth client !! "registry.example.com" = Some v
  ∧ docker.GetRepo client "registry.example.com/app" [] []
    = remote.Get (API := standin.registry example.threeRepos)
        "registry.example.com/app" (docker.options client) []
  ∧ docker.GetRepo client "registry.example.com/app" [] []
    ≠ remote.Get (API := standin.registry example.threeRepos)
        "registry.example.com/app"
        (docker.options client
         ++ [remote.WithAuth {| authn.Username := "user"; authn.Password := "" |}]) [].
Proof. vm_compute. split_and!; [reflexivity..|discriminate]. Qed.

(** A reference whose domain has a full credential, and one whose domain
    has none. *)
Lemma GetRepo_GetRepoTags_basic_auth_witness :
  let client := example.newClient example.threeRepos (docker.Parsed example.auths) [] in
  let basic := remote.WithAuth (API := standin.registry example.threeRepos)
                 {| authn.Username := "user"; authn.Password := "pass" |} in
  (docker.GetRepo client "registry.example.com/app" [] []
   = remote.Get (API := standin.registry example.threeRepos)
       "registry.example.com/app" (docker.options client ++ [basic]) []
   ∧ docker.GetRepoTags client "registry.example.com/app" [] []
     = remote.List (API := standin.registry example.threeRepos)
         "registry.example.com/app" (docker.options client ++ [basic]) [])
  ∧ (docker.GetRepo client "ubuntu" [] []
     = remote.Get (API := standin.registry example.threeRepos)
         "ubuntu" (docker.options client) []
     ∧ docker.GetRepoTags client "ubuntu" [] []
       = remote.List (API := standin.registry example.threeRepos)
           "ubuntu" (docker.options client) []).
Proof.
  intros client basic. split.
  - destruct (GetRepo_GetRepoTags_basic_auth (F := standin.references)
                (R := standin.registry example.threeRepos)
                client "registry.example.com/app" []
                ("registry.example.com", "app") [] eq_refl) as [Hwith _].
    apply (Hwith example.userPass); [reflexivity | discriminate | discriminate].
  - destruct (GetRepo_GetRepoTags_basic_auth (F := standin.references)
                (R := standin.registry example.threeRepos)
                client "ubuntu" [] ("docker.io", "library/ubuntu") [] eq_refl)
      as [_ Hwithout].
    apply Hwithout. left. reflexivity.
Defined.

(** C4 at its failing input: with no credential in the store, the pull
    request of [Pull] carries the token [e30=], the encoding of the empty
    JSON object. *)
Theorem Pull_without_credential_sends_token :
  let client := example.newClient example.threeRepos example.noFile [] in
  docker.auth client !! "docker.io" = None
  ∧ docker.Pull (D := standin.daemon example.up) client "ubuntu" []
    = (Returned ("docker.io/library/ubuntu:latest", None),
       [standin.DaemonPull "ubuntu" {| dockertypes.RegistryAuth := "e30=" |}]).
Proof. vm_compute. split; reflexivity. Qed.

(** [ubuntu] is pulled and named [docker.io/library/ubuntu:latest]. *)
Lemma Pull_returns_canonical_reference_witness :
  docker.Pull (D := standin.daemon example.up)
    (example.newClient example.threeRepos example.noFile []) "ubuntu" []
  = (Returned ("docker.io/library/ubuntu:latest", None),
     [standin.DaemonPull "ubuntu" {| dockertypes.RegistryAuth := "e30=" |}])
  ∧ "docker.io/library/ubuntu:latest"
    = reference.NamedString ("docker.io", "library/ubuntu").
Proof.
  split; [reflexivity|].
  apply (Pull_returns_canonical_reference (F := standin.references) (J := standin.jsons)
           (D := standin.daemon example.up)
           (example.newClient example.threeRepos example.noFile []) "ubuntu"
           ("docker.io", "library/ubuntu") "docker.io/library/ubuntu:latest" []
           [standin.DaemonPull "ubuntu" {| dockertypes.RegistryAuth := "e30=" |}]);
    reflexivity.
Defined.

(** The daemon refuses the pull and hands back no stream. *)
Lemma Pull_drops_pull_error_witness :
  docker.Pull (D := standin.daemon example.refusing)
    (example.newClient example.threeRepos example.noFile []) "ubuntu" []
  = (Panicked, [standin.DaemonPull "ubuntu" {| dockertypes.RegistryAuth := "e30=" |}]).
Proof.
  exact (Pull_drops_pull_error (F := standin.references) (J := standin.jsons)
           (D := standin.daemon example.refusing)
           (example.newClient example.threeRepos example.noFile []) "ubuntu"
           ("docker.io", "library/ubuntu") tt [] [] "e30=" None
           (Err "pull access denied")
           [standin.DaemonPull "ubuntu" {| dockertypes.RegistryAuth := "e30=" |}]
           eq_refl eq_refl eq_refl eq_refl).
Defined.

(** The runtime pulls [ubuntu] to the digest [sha256:2c26b46b]. *)
Lemma containerd_Pull_identifier_witness :
  containerd.Pull example.runtimeClient "ubuntu" []
  = (("veinmind-runner/sha256:2c26b46b", None),
     [standin.RuntimePull "docker.io/library/ubuntu:latest"])
  ∧ ∃ image,
      containerdlib.Pull (containerd.client example.runtimeClient)
        "docker.io/library/ubuntu:latest" []
      = (Ok image, [standin.RuntimePull "docker.io/library/ubuntu:latest"])
      ∧ "veinmind-runner/sha256:2c26b46b"
        = "veinmind-runner" +:+ "/" +:+ containerdlib.TargetDigest image.
Proof.
  split; [reflexivity|].
  apply (containerd_Pull_identifier (F := standin.references) (C := standin.runtime)
           example.runtimeClient "ubuntu" "veinmind-runner/sha256:2c26b46b" []
           [standin.RuntimePull "docker.io/library/ubuntu:latest"]).
  reflexivity.
Defined.

(** The requests of [GetRepos] against a registry of three repositories
    that hands out pages of two: the cursors are the empty string, then
    the last name of each page, and the page size asked for is 10000. *)
Example GetRepos_requests :
  let client := example.newClient example.threeRepos example.noFile [] in
  docker.GetRepos 4 client "registry.example.com" [] []
  = Some ((["alpine"; "busybox"; "nginx"], None),
          [standin.CatalogRequest "registry.example.com" "" 10000 (docker.options client);
           standin.CatalogRequest "registry.example.com" "busybox" 10000 (docker.options client);
           standin.CatalogRequest "registry.example.com" "nginx" 10000 (docker.options client)]).
Proof. vm_compute. reflexivity. Qed.

(** Without enough turns the loop has not yet left. *)
Example GetRepos_out_of_fuel :
  docker.GetRepos 2 (example.newClient example.threeRepos example.noFile [])
    "registry.example.com" [] [] = None.
Proof. vm_compute. reflexivity. Qed.

(** With a credential in the store the pull request carries its token,
    the base64 of [{"username":"user","password":"pass"}]. *)
Example Pull_with_credential_sends_token :
  docker.Pull (D := standin.daemon example.up)
    (example.newClient example.threeRepos (docker.Parsed example.auths) [])
    "registry.example.com/app" []
  = (Returned ("registry.example.com/app:latest", None),
     [standin.DaemonPull "registry.example.com/app"
        {| dockertypes.RegistryAuth :=
             "eyJ1c2VybmFtZSI6InVzZXIiLCJwYXNzd29yZCI6InBhc3MifQ==" |}]).
Proof. vm_compute. reflexivity. Qed.

(** ** Examples of the further properties *)

(** The second of three overrides names no registry; the config file
    has one entry. *)
Lemma failing_override_skipped_witness :
  let r1 := docker.NewRegistryClient (U := standin.urls)
              (R := standin.registry example.threeRepos) (docker.Parsed example.auths)
              ((λ o, docker.WithAuth o.1 o.2)
                 <$> ([("127.0.0.1:5000", example.admin)]
                      ++ ("bad/address", example.admin)
                         :: [("10.0.0.1:5000", example.userPass)])) in
  let r2 := docker.NewRegistryClient (U := standin.urls)
              (R := standin.registry example.threeRepos) (docker.Parsed example.auths)
              ((λ o, docker.WithAuth o.1 o.2)
                 <$> ([("127.0.0.1:5000", example.admin)]
                      ++ [("10.0.0.1:5000", example.userPass)])) in
  r1.1 = r2.1
  ∧ ∃ rest, r1.2 = omap overrideError [("127.0.0.1:5000", example.admin)]
                   ++ log.Error (Err "registries must be valid RFC 3986 URI authorities")
                      :: rest
            ∧ r2.2 = omap overrideError [("127.0.0.1:5000", example.admin)] ++ rest.
Proof.
  exact (failing_override_skipped (U := standin.urls)
           (R := standin.registry example.threeRepos) (docker.Parsed example.auths)
           [("127.0.0.1:5000", example.admin)] [("10.0.0.1:5000", example.userPass)]
           "bad/address" example.admin
           (Err "registries must be valid RFC 3986 URI authorities") eq_refl).
Defined.

(** No config file, one good and one bad override. *)
Lemma NewRegistryClient_without_file_witness :
  let r := docker.NewRegistryClient (U := standin.urls)
             (R := standin.registry example.threeRepos) example.noFile
             ((λ o, docker.WithAuth o.1 o.2)
                <$> [("registry.example.com", example.admin); ("bad/address", example.admin)]) in
  (∀ d, docker.auth r.1.1 !! d
        = lastWrite d (omap overrideWrite
                         [("registry.example.com", example.admin);
                          ("bad/address", example.admin)]))
  ∧ r.2 = omap overrideError
            [("registry.example.com", example.admin); ("bad/address", example.admin)]
          ++ [log.Error (Err "stat /root/.docker/config.json: no such file or directory")].
Proof.
  exact (NewRegistryClient_without_file (U := standin.urls)
           (R := standin.registry example.threeRepos) example.noFile
           [("registry.example.com", example.admin); ("bad/address", example.admin)]
           (Err "stat /root/.docker/config.json: no such file or directory") eq_refl).
Defined.

(** Between two good entries, an entry for [127.0.0.1:5000] whose auth
    block [YTpiOmM=] is [a:b:c]: three parts, not two. *)
Lemma rejected_entry_skipped_witness :
  docker.auth (example.newClient example.threeRepos
                 (docker.Parsed (example.auths
                                 ++ ("127.0.0.1:5000", authBlock "YTpiOmM=")
                                    :: [("10.0.0.1:5000", authBlock "dXNlcjpwYXNz")])) [])
  = docker.auth (example.newClient example.threeRepos
                   (docker.Parsed (example.auths
                                   ++ [("10.0.0.1:5000", authBlock "dXNlcjpwYXNz")])) []).
Proof.
  exact (rejected_entry_skipped (U := standin.urls)
           (R := standin.registry example.threeRepos) []
           example.auths [("10.0.0.1:5000", authBlock "dXNlcjpwYXNz")]
           ("127.0.0.1:5000", authBlock "YTpiOmM=") eq_refl).
Defined.

(** The store of that witness: the rejected entry has left nothing
    under its domain. *)
Example rejected_entry_leaves_no_key :
  let store :=
    docker.auth (example.newClient example.threeRepos
                   (docker.Parsed (example.auths
                                   ++ ("127.0.0.1:5000", authBlock "YTpiOmM=")
                                      :: [("10.0.0.1:5000", authBlock "dXNlcjpwYXNz")])) []) in
  store !! "registry.example.com" = Some example.userPass
  ∧ store !! "127.0.0.1:5000" = None
  ∧ store !! "10.0.0.1:5000" = Some example.userPass.
Proof. vm_compute. repeat split; reflexivity. Qed.

Lemma store_keys_are_registries_witness :
  ∃ registryName registry,
    name.NewRegistry registryName = Ok registry
    ∧ "registry.example.com" = name.RegistryString registry.
Proof.
  exact (store_keys_are_registries (U := standin.urls)
           (R := standin.registry example.threeRepos) [] example.auths
           "registry.example.com" example.userPass eq_refl).
Defined.

Lemma store_values_provenance_witness :
  (∃ address, (address, example.userPass) ∈ @nil (string * docker.Auth))
  ∨ (∃ server config,
       (server, config) ∈ example.auths
       ∧ dockertypes.Auth config ≠ EmptyString
       ∧ base64.DecodeString base64.StdEncoding (dockertypes.Auth config)
         = Some ("user" +:+ ":" +:+ "pass")
       ∧ Strings.Count "user" ":" = 0
       ∧ Strings.Count "pass" ":" = 0).
Proof.
  exact (store_values_provenance (U := standin.urls)
           (R := standin.registry example.threeRepos) [] example.auths
           "registry.example.com" example.userPass eq_refl).
Defined.

Lemma WithAuth_sets_one_key_witness :
  ∃ c', fixture.withAuth "registry.example.com" example.admin fixture.blank = Ok c'
        ∧ docker.auth c' !! "registry.example.com" = Some example.admin
        ∧ (∀ d, d ≠ "registry.example.com" → docker.auth c' !! d = docker.auth fixture.blank !! d)
        ∧ docker.options c' = docker.options fixture.blank.
Proof.
  exact (WithAuth_sets_one_key (R := standin.registry example.threeRepos)
           "registry.example.com" example.admin fixture.blank "registry.example.com" eq_refl).
Defined.

(** The run of three requests against the registry of three
    repositories: two pages, then an empty one. *)
Lemma GetRepos_sound_witness :
  let client := fixture.clientOf example.threeRepos [] in
  let w' := [standin.CatalogRequest "registry.example.com" "" 10000
               (fixture.transport example.threeRepos);
             standin.CatalogRequest "registry.example.com" "busybox" 10000
               (fixture.transport example.threeRepos);
             standin.CatalogRequest "registry.example.com" "nginx" 10000
               (fixture.transport example.threeRepos)] in
  (∃ e, name.NewRegistry "registry.example.com" = Failed e
        ∧ ["alpine"; "busybox"; "nginx"] = [] ∧ @None error = Some e ∧ w' = [])
  ∨ (∃ regsitry last w1 junk,
       name.NewRegistry "registry.example.com" = Ok regsitry
       ∧ fetched regsitry (requestOptions client "registry.example.com" []) EmptyString []
           ["alpine"; "busybox"; "nginx"] last w1
       ∧ remote.CatalogPage regsitry last 10000
           (requestOptions client "registry.example.com" []) w1 = ((junk, None), w')
       ∧ (@None error = None → junk = [])).
Proof.
  intros client w'.
  apply (GetRepos_sound (R := standin.registry example.threeRepos) 4 client
           "registry.example.com" [] [] ["alpine"; "busybox"; "nginx"] None w').
  vm_compute. reflexivity.
Defined.

(** Twenty-five turns against the registry that repeats [alpine]. *)
Lemma GetRepos_never_leaves_witness :
  docker.GetRepos 25 (fixture.clientOf scenario.repeating []) "registry.example.com" [] []
  = None.
Proof.
  apply (GetRepos_never_leaves (R := standin.registry scenario.repeating)
           (fixture.clientOf scenario.repeating []) "registry.example.com" []
           "registry.example.com"
           (λ last _, last = EmptyString ∨ last = "alpine") [] 25).
  - reflexivity.
  - left. reflexivity.
  - intros last w [->| ->].
    + exists ["alpine"], (w ++ [standin.CatalogRequest "registry.example.com" "" 10000
                                  (fixture.transport scenario.repeating)]).
      split_and!; [reflexivity | discriminate | right; reflexivity].
    + exists ["alpine"], (w ++ [standin.CatalogRequest "registry.example.com" "alpine" 10000
                                  (fixture.transport scenario.repeating)]).
      split_and!; [reflexivity | discriminate | right; reflexivity].
Defined.

(** The empty address stands for the registry [index.docker.io]: the
    override is filed under that name and not sent for the empty
    address. *)
Lemma GetRepos_uses_override_witness :
  let client := (docker.NewRegistryClient (U := standin.urls)
                   (R := standin.registry example.threeRepos) example.noFile
                   [docker.WithAuth "" example.admin]).1.1 in
  docker.auth client !! "index.docker.io" = Some example.admin
  ∧ docker.GetRepos 3 client "" [] []
    = docker.catalogLoop (R := standin.registry example.threeRepos) 3 "index.docker.io"
        (fixture.transport example.threeRepos) EmptyString [] [].
Proof.
  exact (GetRepos_uses_override (U := standin.urls)
           (R := standin.registry example.threeRepos) example.noFile
           (Err "stat /root/.docker/config.json: no such file or directory")
           "" example.admin "index.docker.io" 3 [] [] eq_refl eq_refl).
Defined.

(** The empty reference does not parse. *)
Lemma invalid_reference_fails_fast_witness :
  let client := fixture.clientOf example.threeRepos [] in
  docker.GetRepo client "" [] [] = ((None, Some (Err "invalid reference format")), [])
  ∧ docker.GetRepoTags client "" [] [] = (([], Some (Err "invalid reference format")), [])
  ∧ ∃ e', docker.Pull (D := standin.daemon example.up) client "" []
          = (Returned (EmptyString, Some e'),
             (dockercli.NewClientWithOpts (API := standin.daemon example.up) []).2)
          ∧ (e' = Err "invalid reference format"
             ∨ (dockercli.NewClientWithOpts (API := standin.daemon example.up) []).1
               = Failed e').
Proof.
  exact (invalid_reference_fails_fast (F := standin.references) (J := standin.jsons)
           (R := standin.registry example.threeRepos) (D := standin.daemon example.up)
           (fixture.clientOf example.threeRepos []) ""
           (Err "invalid reference format") [] [] eq_refl).
Defined.

(** The stream of the pull breaks off. *)
Lemma Pull_error_sources_witness :
  let client := fixture.clientOf example.threeRepos [] in
  let e := Err "unexpected EOF" in
  let w' := [standin.DaemonPull "ubuntu" {| dockertypes.RegistryAuth := "e30=" |}] in
  EmptyString = EmptyString
  ∧ (dockercli.NewClientWithOpts (API := standin.daemon scenario.truncating) []
     = (Failed e, w')
     ∨ (∃ c, dockercli.NewClientWithOpts (API := standin.daemon scenario.truncating) []
             = (Ok c, w')
             ∧ reference.ParseDockerRef "ubuntu" = Failed e)
     ∨ (∃ c w1 named token stream perr w2 data,
          dockercli.NewClientWithOpts (API := standin.daemon scenario.truncating) []
          = (Ok c, w1)
          ∧ reference.ParseDockerRef "ubuntu" = Ok named
          ∧ dockercli.ImagePull c "ubuntu" {| dockertypes.RegistryAuth := token |} w1
            = ((Some stream, perr), w2)
          ∧ dockercli.ReadAll stream w2 = ((data, Some e), w'))).
Proof.
  intros client e w'.
  apply (Pull_error_sources (F := standin.references) (J := standin.jsons)
           (D := standin.daemon scenario.truncating) client "ubuntu" EmptyString e [] w').
  vm_compute. reflexivity.
Defined.

(** [ubuntu] is pulled by a daemon that accepts the pull. *)
Lemma Pull_succeeds_witness :
  "e30=" ≠ EmptyString
  ∧ docker.Pull (D := standin.daemon example.up) (fixture.clientOf example.threeRepos [])
      "ubuntu" []
    = (Returned ("docker.io/library/ubuntu:latest", None),
       [standin.DaemonPull "ubuntu" {| dockertypes.RegistryAuth := "e30=" |}]).
Proof.
  exact (Pull_succeeds (F := standin.references) (J := standin.jsons)
           (D := standin.daemon example.up) (fixture.clientOf example.threeRepos [])
           "ubuntu" ("docker.io", "library/ubuntu") tt [] [] "pull complete" None
           [standin.DaemonPull "ubuntu" {| dockertypes.RegistryAuth := "e30=" |}]
           "pull complete"
           [standin.DaemonPull "ubuntu" {| dockertypes.RegistryAuth := "e30=" |}]
           eq_refl eq_refl eq_refl eq_refl).
Defined.

(** [ubuntu] is pulled, then removed under the name the pull returned. *)
Lemma Pull_then_Remove_witness :
  let client := fixture.clientOf example.threeRepos [] in
  let w1 := [standin.DaemonPull "ubuntu" {| dockertypes.RegistryAuth := "e30=" |}] in
  docker.Remove (D := standin.daemon example.up) client "docker.io/library/ubuntu:latest" w1
  = (None, w1 ++ [standin.DaemonRemove "docker.io/library/ubuntu:latest"]).
Proof.
  exact (Pull_then_Remove (F := standin.references) (J := standin.jsons)
           (D := standin.daemon example.up) (fixture.clientOf example.threeRepos [])
           "ubuntu" ("docker.io", "library/ubuntu") "docker.io/library/ubuntu:latest" []
           [standin.DaemonPull "ubuntu" {| dockertypes.RegistryAuth := "e30=" |}] tt
           [standin.DaemonPull "ubuntu" {| dockertypes.RegistryAuth := "e30=" |}]
           eq_refl eq_refl eq_refl).
Defined.
